(** * Registro y login: validadores, registro en memoria y emisión de token

    Shallow embedding of [prueba.go] (package main): the three field
    validators, the in-memory slice [usuarios], and the two HTTP handlers
    [registroHandler] and [loginHandler].

    Go strings are byte sequences; they are modelled as [list ascii].  A
    [for _, c := range s] loop walks the runes obtained by UTF-8 decoding,
    [len(s)] counts bytes.  Go's [int] and [rune] are modelled by [Z]; every
    integer that occurs is a length or a code point, far from 64-bit
    overflow. *)

From Stdlib Require Import ZArith List Bool Ascii String Lia.
Import ListNotations.
Local Open Scope Z_scope.

(** ** Go strings as byte lists *)

Module GoString.

Definition gostring := list ascii.
Definition rune := Z.

(** A string literal, byte for byte. *)
Definition go (s : string) : gostring := list_ascii_of_string s.

(** The numeric value of a byte. *)
Definition code (a : ascii) : Z := Z.of_N (N_of_ascii a).

(** [len(s)]: the number of bytes. *)
Definition len (s : gostring) : Z := Z.of_nat (List.length s).

Definition byte_eqb (a b : ascii) : bool := Ascii.eqb a b.

(** [s == t] on strings. *)
Fixpoint streq (s t : gostring) : bool :=
  match s, t with
  | [], [] => true
  | a :: s', b :: t' => byte_eqb a b && streq s' t'
  | _, _ => false
  end.

(** [s[i:]] and [s[:i]] for an index within bounds. *)
Definition desde (i : Z) (s : gostring) : gostring := skipn (Z.to_nat i) s.
Definition hasta (i : Z) (s : gostring) : gostring := firstn (Z.to_nat i) s.

(** *** package utf8 *)

Definition RuneError : rune := 0xFFFD.
Definition RuneSelf : Z := 0x80.
Definition UTFMax : Z := 4.
Definition MaxLatin1 : rune := 0xFF.

Definition entre (lo hi x : Z) : bool := (lo <=? x) && (x <=? hi).

(** Continuation byte of the default accept range. *)
Definition locb : Z := 0x80.
Definition hicb : Z := 0xBF.

(** Accept range of the second byte, chosen by the first byte (the table
    [acceptRanges] indexed through [first]). *)
Definition acceptLo (b0 : Z) : Z :=
  if b0 =? 0xE0 then 0xA0 else if b0 =? 0xF0 then 0x90 else locb.
Definition acceptHi (b0 : Z) : Z :=
  if b0 =? 0xED then 0x9F else if b0 =? 0xF4 then 0x8F else hicb.

(** [utf8.DecodeRuneInString]: the first rune of [s] and its width in bytes;
    [(RuneError, 0)] on the empty string and [(RuneError, 1)] on an invalid
    encoding. *)
Definition DecodeRune (s : gostring) : rune * Z :=
  match s with
  | [] => (RuneError, 0)
  | a0 :: t =>
    let b0 := code a0 in
    if b0 <? RuneSelf then (b0, 1)
    else if entre 0xC2 0xDF b0 then
      match t with
      | a1 :: _ =>
        let b1 := code a1 in
        if entre locb hicb b1
        then (Z.lor (Z.shiftl (Z.land b0 0x1F) 6) (Z.land b1 0x3F), 2)
        else (RuneError, 1)
      | _ => (RuneError, 1)
      end
    else if entre 0xE0 0xEF b0 then
      match t with
      | a1 :: a2 :: _ =>
        let b1 := code a1 in
        let b2 := code a2 in
        if entre (acceptLo b0) (acceptHi b0) b1 && entre locb hicb b2
        then (Z.lor (Z.lor (Z.shiftl (Z.land b0 0x0F) 12)
                           (Z.shiftl (Z.land b1 0x3F) 6))
                    (Z.land b2 0x3F), 3)
        else (RuneError, 1)
      | _ => (RuneError, 1)
      end
    else if entre 0xF0 0xF4 b0 then
      match t with
      | a1 :: a2 :: a3 :: _ =>
        let b1 := code a1 in
        let b2 := code a2 in
        let b3 := code a3 in
        if entre (acceptLo b0) (acceptHi b0) b1 && entre locb hicb b2
           && entre locb hicb b3
        then (Z.lor (Z.lor (Z.lor (Z.shiftl (Z.land b0 0x07) 18)
                                  (Z.shiftl (Z.land b1 0x3F) 12))
                           (Z.shiftl (Z.land b2 0x3F) 6))
                    (Z.land b3 0x3F), 4)
        else (RuneError, 1)
      | _ => (RuneError, 1)
      end
    else (RuneError, 1)
  end.

(** The runes a [for _, c := range s] loop visits, in order.  Every step
    consumes at least one byte, so [length s] steps are enough. *)
Fixpoint runesAux (fuel : nat) (s : gostring) : list rune :=
  match fuel with
  | O => []
  | S f =>
    match s with
    | [] => []
    | _ :: _ => let '(r, w) := DecodeRune s in r :: runesAux f (desde w s)
    end
  end.

Definition runes (s : gostring) : list rune := runesAux (List.length s) s.

(** [utf8.RuneStart]. *)
Definition RuneStart (b : Z) : bool := negb (Z.land b 0xC0 =? 0x80).

(** [s[i]] for an index within bounds (0 outside, never reached). *)
Definition byteAt (s : gostring) (i : Z) : Z :=
  code (nth (Z.to_nat i) s zero).

(** The backwards scan of [DecodeLastRuneInString]:
    [for start--; start >= lim; start-- { if RuneStart(s[start]) { break } }],
    entered with [start] already decremented. *)
Fixpoint buscarInicio (fuel : nat) (s : gostring) (start lim : Z) : Z :=
  match fuel with
  | O => start
  | S f =>
    if start <? lim then start
    else if RuneStart (byteAt s start) then start
    else buscarInicio f s (start - 1) lim
  end.

(** [utf8.DecodeLastRuneInString]. *)
Definition DecodeLastRune (s : gostring) : rune * Z :=
  let fin := len s in
  if fin =? 0 then (RuneError, 0)
  else
    let start := fin - 1 in
    let r := byteAt s start in
    if r <? RuneSelf then (r, 1)
    else
      let lim := Z.max 0 (fin - UTFMax) in
      let start := buscarInicio 4 s (start - 1) lim in
      let start := Z.max 0 start in
      let '(r, size) := DecodeRune (desde start s) in
      if start + size =? fin then (r, size) else (RuneError, 1).

End GoString.

(** ** package unicode *)

Module GoUnicode.
Import GoString.

(** One entry of a range table: the code points [Lo], [Lo+Stride], ... up to
    [Hi]. *)
Record Range := mkRange { Lo : Z; Hi : Z; Stride : Z }.

(** A range table, restricted to its entries above Latin-1 (the part
    [isExcludingLatin] searches). *)
Definition RangeTable := list Range.

Definition enRango (r : rune) (g : Range) : bool :=
  (Lo g <=? r) && (r <=? Hi g) && ((r - Lo g) mod Stride g =? 0).

(** [isExcludingLatin]: membership of [r] in the table; the library finds the
    entry by linear or binary search over sorted ranges. *)
Definition isExcludingLatin (rangeTab : RangeTable) (r : rune) : bool :=
  existsb (enRango r) rangeTab.

(** [uint32(r)] for a 32-bit rune. *)
Definition uint32 (r : rune) : Z := r mod 2 ^ 32.

Definition White_Space : RangeTable :=
  [ mkRange 0x1680 0x1680 1; mkRange 0x2000 0x200a 1; mkRange 0x2028 0x2029 1;
    mkRange 0x202f 0x202f 1; mkRange 0x205f 0x205f 1; mkRange 0x3000 0x3000 1 ].

Definition IsSpace (r : rune) : bool :=
  if uint32 r <=? MaxLatin1 then
    (r =? 0x09) || (r =? 0x0A) || (r =? 0x0B) || (r =? 0x0C) || (r =? 0x0D)
    || (r =? 0x20) || (r =? 0x85) || (r =? 0xA0)
  else isExcludingLatin White_Space r.

(** The letter bits of the Latin-1 table [properties]: exactly one of
    [pLu], [pLl] for a cased letter, both ([pLo]) for the two uncased
    letters U+00AA and U+00BA, none otherwise. *)
Definition latin1Lu (r : rune) : bool :=
  entre 0x41 0x5A r || entre 0xC0 0xD6 r || entre 0xD8 0xDE r.
Definition latin1Ll (r : rune) : bool :=
  entre 0x61 0x7A r || (r =? 0xB5) || entre 0xDF 0xF6 r || entre 0xF8 0xFF r.

(** The tables [unicode.Upper], [unicode.Lower] and [unicode.Digit] above
    Latin-1 belong to the Go distribution, not to this program: the
    development is parametric in them. *)
Record Tables := mkTables
  { Upper : RangeTable; Lower : RangeTable; Digit : RangeTable }.

Section Clases.
Variable T : Tables.

Definition IsUpper (r : rune) : bool :=
  if uint32 r <=? MaxLatin1 then latin1Lu r else isExcludingLatin (Upper T) r.

Definition IsLower (r : rune) : bool :=
  if uint32 r <=? MaxLatin1 then latin1Ll r else isExcludingLatin (Lower T) r.

Definition IsDigit (r : rune) : bool :=
  if r <=? MaxLatin1 then (0x30 <=? r) && (r <=? 0x39)
  else isExcludingLatin (Digit T) r.

End Clases.

End GoUnicode.

(** ** package strings *)

Module GoStrings.
Import GoString GoUnicode.

Fixpoint HasPrefix (s prefix : gostring) : bool :=
  match prefix, s with
  | [], _ => true
  | p :: ps, c :: cs => byte_eqb c p && HasPrefix cs ps
  | _ :: _, [] => false
  end.

Definition HasSuffix (s suffix : gostring) : bool :=
  (len suffix <=? len s) && streq (desde (len s - len suffix) s) suffix.

(** [strings.Index]: the first position where [substr] occurs, or -1. *)
Fixpoint Index (s substr : gostring) : Z :=
  if HasPrefix s substr then 0
  else match s with
       | [] => -1
       | _ :: t => let i := Index t substr in if i <? 0 then -1 else i + 1
       end.

Definition Contains (s substr : gostring) : bool := 0 <=? Index s substr.

(** [strings.LastIndex]: the last position where [substr] occurs, or -1. *)
Fixpoint LastIndex (s substr : gostring) : Z :=
  match s with
  | [] => if HasPrefix [] substr then 0 else -1
  | _ :: t =>
    let i := LastIndex t substr in
    if 0 <=? i then i + 1 else if HasPrefix s substr then 0 else -1
  end.

(** [strings.Split] for a non-empty separator (the only use here): cut at
    each occurrence, left to right.  Every cut consumes at least one byte. *)
Fixpoint genSplit (fuel : nat) (s sep : gostring) : list gostring :=
  match fuel with
  | O => [s]
  | S f =>
    let m := Index s sep in
    if m <? 0 then [s]
    else hasta m s :: genSplit f (desde (m + len sep) s) sep
  end.

Definition Split (s sep : gostring) : list gostring :=
  genSplit (List.length s) s sep.

(** [strings.ContainsRune]: [r] is among the runes of [s]. *)
Definition ContainsRune (s : gostring) (r : rune) : bool :=
  existsb (Z.eqb r) (runes s).

(** [strings.TrimLeftFunc]: the slice of [s] that starts at the first rune
    of the range loop for which [f] is false. *)
Fixpoint trimLeft (fuel : nat) (f : rune -> bool) (s : gostring) : gostring :=
  match fuel with
  | O => s
  | S n =>
    match s with
    | [] => []
    | _ :: _ =>
      let '(r, w) := DecodeRune s in
      if f r then trimLeft n f (desde w s) else s
    end
  end.

Definition TrimLeftFunc (s : gostring) (f : rune -> bool) : gostring :=
  trimLeft (List.length s) f s.

(** [strings.TrimRightFunc]: the slice of [s] that ends with the last rune
    for which [f] is false, the runes being read from the end by
    [DecodeLastRuneInString] as in the library's [lastIndexFunc]. *)
Fixpoint trimRight (fuel : nat) (f : rune -> bool) (s : gostring) : gostring :=
  match fuel with
  | O => s
  | S n =>
    match s with
    | [] => []
    | _ :: _ =>
      let '(r, size) := DecodeLastRune s in
      if f r then trimRight n f (hasta (len s - size) s) else s
    end
  end.

Definition TrimRightFunc (s : gostring) (f : rune -> bool) : gostring :=
  trimRight (List.length s) f s.

(** [strings.TrimSpace]: the slice of [s] without leading and trailing white
    space as defined by Unicode, that is [TrimFunc(s, unicode.IsSpace)]; the
    library's ASCII fast path returns the same slice. *)
Definition TrimSpace (s : gostring) : gostring :=
  TrimRightFunc (TrimLeftFunc s IsSpace) IsSpace.

End GoStrings.


(** ** package time, package jwt *)

Module GoTime.

(** A [time.Time] as the wall-clock instant in nanoseconds since the Unix
    epoch; a [time.Duration] in nanoseconds. *)
Definition Time := Z.
Definition Duration := Z.

Definition Second : Duration := 1000000000.
Definition Hour : Duration := 3600 * Second.

Definition Add (t : Time) (d : Duration) : Time := t + d.

(** [t.Unix()]: whole seconds since the epoch, rounded down. *)
Definition Unix (t : Time) : Z := t / Second.

End GoTime.

Module Jwt.
Import GoString.

Inductive SigningMethod :=
| SigningMethodHS256
| SigningMethodHS384
| SigningMethodHS512.

(** The values this program puts in a claim set. *)
Inductive Valor :=
| VString (s : gostring)
| VInt64 (n : Z).

(** [jwt.MapClaims], listed in the order of the composite literal. *)
Definition MapClaims := list (gostring * Valor).

Record Token := mkToken { Method : SigningMethod; Claims : MapClaims }.

Definition NewWithClaims (method : SigningMethod) (claims : MapClaims) : Token :=
  mkToken method claims.

(** The compact serialisation [header.claims.signature] is kept symbolic: it
    is determined by the signing method, the claim set and the key. *)
Inductive TokenString :=
| Firmado (method : SigningMethod) (claims : MapClaims) (key : gostring).

(** [token.SignedString(key)]: with an HMAC method and a [[]byte] key the
    library returns no error. *)
Definition SignedString (t : Token) (key : gostring) : option TokenString :=
  Some (Firmado (Method t) (Claims t) key).

End Jwt.

(** ** prueba.go *)

Import GoString GoUnicode GoStrings GoTime.

Record Usuario := mkUsuario
  { Correo : gostring; Telefono : gostring; Password : gostring }.

Definition jwtKey : gostring := go "mi_clave_secreta".

Record RegistroRequest := mkRegistroRequest
  { rCorreo : gostring; rTelefono : gostring; rPassword : gostring }.

Record LoginRequest := mkLoginRequest
  { lCorreo : gostring; lPassword : gostring }.

Record ErrorResponse := mkErrorResponse { Error : gostring }.

Record LoginResponse := mkLoginResponse
  { Token : Jwt.TokenString; FechaInicio : Time }.

(** *** Validators *)

Definition caracterValido (c : rune) : bool :=
  entre 0x61 0x7A c || entre 0x41 0x5A c || entre 0x30 0x39 c
  || (c =? 0x2E) || (c =? 0x2D) || (c =? 0x5F) || (c =? 0x40).

Definition caracteresValidos (s : gostring) : bool :=
  forallb caracterValido (runes s).

Definition validarCorreo (correo : gostring) : bool :=
  let correo := TrimSpace correo in
  if streq correo [] then false
  else
    let partes := Split correo (go "@") in
    match partes with
    | [parteLocal; dominio] =>
      if (len parteLocal =? 0) || (64 <? len parteLocal) then false
      else if HasPrefix parteLocal (go ".") || HasSuffix parteLocal (go ".")
      then false
      else if Contains parteLocal (go "..") then false
      else if (len dominio =? 0) || (255 <? len dominio) then false
      else if negb (Contains dominio (go ".")) then false
      else if HasPrefix dominio (go ".") || HasSuffix dominio (go ".")
              || HasPrefix dominio (go "-") || HasSuffix dominio (go "-")
      then false
      else
        let ultimoPunto := LastIndex dominio (go ".") in
        let extension := desde (ultimoPunto + 1) dominio in
        if len extension <? 2 then false
        else caracteresValidos correo
    | _ => false
    end.

Definition validarTelefono (telefono : gostring) : bool :=
  if negb (len telefono =? 10) then false
  else forallb (fun c => negb ((c <? 0x30) || (0x39 <? c))) (runes telefono).

Record Banderas := mkBanderas
  { tieneMayus : bool; tieneMinus : bool;
    tieneNumero : bool; tieneEspecial : bool }.

Definition especiales : gostring := go "@$&".

Section Password.
Variable T : Tables.

(** One turn of the [switch] inside the loop of [validarPassword]. *)
Definition clasificar (b : Banderas) (c : rune) : Banderas :=
  if IsUpper T c then
    mkBanderas true (tieneMinus b) (tieneNumero b) (tieneEspecial b)
  else if IsLower T c then
    mkBanderas (tieneMayus b) true (tieneNumero b) (tieneEspecial b)
  else if IsDigit T c then
    mkBanderas (tieneMayus b) (tieneMinus b) true (tieneEspecial b)
  else if ContainsRune especiales c then
    mkBanderas (tieneMayus b) (tieneMinus b) (tieneNumero b) true
  else b.

Definition validarPassword (password : gostring) : bool :=
  if (len password <? 6) || (12 <? len password) then false
  else
    let b := fold_left clasificar (runes password)
                       (mkBanderas false false false false) in
    tieneMayus b && tieneMinus b && tieneNumero b && tieneEspecial b.

End Password.

(** *** The process state and the HTTP response *)

(** What a handler can read and change: the slice [usuarios], the system
    clock (the [n]-th call of [time.Now] returns [reloj n]) and standard
    output. *)
Record Mundo := mkMundo
  { usuarios : list Usuario;
    reloj : nat -> Time;
    lecturas : nat;
    consola : list gostring }.

Definition imprimir (linea : gostring) (m : Mundo) : Mundo :=
  mkMundo (usuarios m) (reloj m) (lecturas m) (consola m ++ [linea]).

Definition agregar (u : Usuario) (m : Mundo) : Mundo :=
  mkMundo (usuarios m ++ [u]) (reloj m) (lecturas m) (consola m).

(** [time.Now()]. *)
Definition Now (m : Mundo) : Time * Mundo :=
  (reloj m (lecturas m),
   mkMundo (usuarios m) (reloj m) (S (lecturas m)) (consola m)).

Inductive Cuerpo :=
| CuerpoError (e : ErrorResponse)
| CuerpoTexto (s : gostring)
| CuerpoLogin (r : LoginResponse).

(** What was written to the [http.ResponseWriter]: status code, headers set
    by the handler, body. *)
Record Respuesta := mkRespuesta
  { codigo : Z; cabeceras : list (gostring * gostring); cuerpo : Cuerpo }.

Definition StatusOK : Z := 200.
Definition StatusCreated : Z := 201.
Definition StatusBadRequest : Z := 400.
Definition StatusUnauthorized : Z := 401.
Definition StatusConflict : Z := 409.
Definition StatusInternalServerError : Z := 500.

(** The literal [{"mensaje":"Usuario registrado exitosamente"}]. *)
Definition comillas : gostring := [ascii_of_nat 34].
Definition cuerpoRegistrado : gostring :=
  go "{" ++ comillas ++ go "mensaje" ++ comillas ++ go ":" ++ comillas
  ++ go "Usuario registrado exitosamente" ++ comillas ++ go "}".

Definition responderError (status : Z) (mensaje : string) : Respuesta :=
  mkRespuesta status [] (CuerpoError (mkErrorResponse (go mensaje))).

(** *** registroHandler *)

(** The loop "Revisión de duplicados": the response of the first iteration
    that returns, if any. *)
Fixpoint revisarDuplicados (us : list Usuario) (req : RegistroRequest)
  : option Respuesta :=
  match us with
  | [] => None
  | u :: resto =>
    if streq (Correo u) (rCorreo req) then
      Some (responderError StatusConflict "El correo ya se encuentra registrado")
    else if streq (Telefono u) (rTelefono req) then
      Some (responderError StatusConflict "El teléfono ya se encuentra registrado")
    else revisarDuplicados resto req
  end.

Section Handlers.
Variable T : Tables.

(** The handler up to the end of the duplicate loop: [inl] is the response
    of a [return] taken on the way, [inr] the request that reached the line
    "Registro exitoso".  [body] is the outcome of decoding the request body,
    [None] when [Decode] returns an error. *)
Definition verificar (body : option RegistroRequest) (m : Mundo)
  : (Respuesta + RegistroRequest) * Mundo :=
  match body with
  | None => (inl (responderError StatusBadRequest "Cuerpo inválido"), m)
  | Some req =>
    if streq (rCorreo req) [] then
      (inl (responderError StatusBadRequest "Falta el campo correo"),
       imprimir (go "Falta campo correo en el request.") m)
    else if streq (rTelefono req) [] then
      (inl (responderError StatusBadRequest "Falta el campo telefono"),
       imprimir (go "Falta campo telefono en el request.") m)
    else if streq (rPassword req) [] then
      (inl (responderError StatusBadRequest "Falta el campo contraseña"),
       imprimir (go "Falta campo contraseña en el request.") m)
    else if negb (validarCorreo (rCorreo req)) then
      (inl (responderError StatusBadRequest "Correo inválido"), m)
    else if negb (validarTelefono (rTelefono req)) then
      (inl (responderError StatusBadRequest "Teléfono inválido"), m)
    else if negb (validarPassword T (rPassword req)) then
      (inl (responderError StatusBadRequest "Contraseña inválida"), m)
    else
      match revisarDuplicados (usuarios m) req with
      | Some resp => (inl resp, m)
      | None => (inr req, m)
      end
  end.

(** The rest of the handler, from "Registro exitoso". *)
Definition insertar (req : RegistroRequest) (m : Mundo) : Respuesta * Mundo :=
  let m := agregar (mkUsuario (rCorreo req) (rTelefono req) (rPassword req)) m in
  let m := imprimir (go "Usuario registrado correctamente") m in
  (mkRespuesta StatusCreated [] (CuerpoTexto cuerpoRegistrado), m).

Definition registroHandler (body : option RegistroRequest) (m : Mundo)
  : Respuesta * Mundo :=
  let '(r, m) := verificar body m in
  match r with
  | inl resp => (resp, m)
  | inr req => insertar req m
  end.

End Handlers.

(** *** loginHandler *)

(** The loop "Búsqueda de usuario": the first user with that email and
    password. *)
Fixpoint buscarUsuario (us : list Usuario) (req : LoginRequest)
  : option Usuario :=
  match us with
  | [] => None
  | u :: resto =>
    if streq (Correo u) (lCorreo req) && streq (Password u) (lPassword req)
    then Some u
    else buscarUsuario resto req
  end.

Definition loginHandler (body : option LoginRequest) (m : Mundo)
  : Respuesta * Mundo :=
  match body with
  | None =>
    (responderError StatusBadRequest "Cuerpo inválido",
     imprimir (go "El cuerpo de la peticion es invalido!!") m)
  | Some req =>
    if streq (lCorreo req) [] then
      (responderError StatusBadRequest "Falta el campo correo",
       imprimir (go "Falta campo correo en el request.") m)
    else if streq (lPassword req) [] then
      (responderError StatusBadRequest "Falta el campo contraseña",
       imprimir (go "Falta campo contraseña en el request.") m)
    else
      match buscarUsuario (usuarios m) req with
      | None =>
        (responderError StatusUnauthorized "Correo o contraseña incorrectos",
         imprimir (go "Usuario no encontrado.") m)
      | Some usuario =>
        let '(t1, m) := Now m in
        let claims :=
          [ (go "correo", Jwt.VString (Correo usuario));
            (go "exp", Jwt.VInt64 (Unix (Add t1 (Hour * 24)))) ] in
        let token := Jwt.NewWithClaims Jwt.SigningMethodHS256 claims in
        match Jwt.SignedString token jwtKey with
        | None =>
          (responderError StatusInternalServerError "Error generando token",
           imprimir (go "Error al generar el token") m)
        | Some tokenString =>
          let '(t2, m) := Now m in
          let resp := mkLoginResponse tokenString t2 in
          (mkRespuesta StatusOK [(go "Content-Type", go "application/json")]
             (CuerpoLogin resp), m)
        end
      end
  end.

(** *** Serving requests *)

Inductive Peticion :=
| PRegistro (body : option RegistroRequest)
| PLogin (body : option LoginRequest).

Definition atender (T : Tables) (p : Peticion) (m : Mundo) : Respuesta * Mundo :=
  match p with
  | PRegistro body => registroHandler T body m
  | PLogin body => loginHandler body m
  end.

(** Requests served one after the other. *)
Fixpoint servir (T : Tables) (ps : list Peticion) (m : Mundo)
  : list Respuesta * Mundo :=
  match ps with
  | [] => ([], m)
  | p :: resto =>
    let '(r, m) := atender T p m in
    let '(rs, m) := servir T resto m in
    (r :: rs, m)
  end.

Definition mundoInicial (reloj : nat -> Time) : Mundo := mkMundo [] reloj 0 [].

(** Requests served by goroutines that run side by side, as [net/http]
    starts them.  [usuarios] is not guarded by any lock, so another goroutine
    can run between the duplicate loop of one handler and its [append].  A
    goroutine is either about to start [registroHandler], or past the loop
    and about to append, or done. *)
Inductive Gorutina :=
| Recibida (body : option RegistroRequest)
| Revisada (req : RegistroRequest)
| Respondida (resp : Respuesta).

Definition paso (T : Tables) (g : Gorutina) (m : Mundo) : Gorutina * Mundo :=
  match g with
  | Recibida body =>
    let '(r, m) := verificar T body m in
    match r with
    | inl resp => (Respondida resp, m)
    | inr req => (Revisada req, m)
    end
  | Revisada req => let '(resp, m) := insertar req m in (Respondida resp, m)
  | Respondida _ => (g, m)
  end.

Fixpoint reemplazar (i : nat) (g : Gorutina) (gs : list Gorutina)
  : list Gorutina :=
  match gs, i with
  | [], _ => []
  | _ :: resto, O => g :: resto
  | g0 :: resto, S j => g0 :: reemplazar j g resto
  end.

(** Run the goroutines in the interleaving given by [plan]: each entry names
    the goroutine that takes the next step. *)
Fixpoint ejecutar (T : Tables) (plan : list nat) (gs : list Gorutina)
  (m : Mundo) : list Gorutina * Mundo :=
  match plan with
  | [] => (gs, m)
  | i :: resto =>
    match nth_error gs i with
    | None => ejecutar T resto gs m
    | Some g =>
      let '(g', m) := paso T g m in
      ejecutar T resto (reemplazar i g' gs) m
    end
  end.


(** * Vocabulary of the statements *)

(** ** Characters and bytes *)

(** [s] has a character (a rune of the range loop) that satisfies [P]. *)
Definition contiene (P : rune -> bool) (s : gostring) : Prop :=
  exists c, In c (runes s) /\ P c = true.

(** The characters [@], [$] and [&]. *)
Definition esEspecial (c : rune) : bool :=
  (c =? 0x40) || (c =? 0x24) || (c =? 0x26).

(** A code point has one general category: no rune is in two of the classes
    upper-case letter, lower-case letter, decimal digit. *)
Definition clasesDisjuntas (T : Tables) : Prop :=
  forall c,
    (IsUpper T c = true -> IsLower T c = false /\ IsDigit T c = false)
    /\ (IsLower T c = true -> IsDigit T c = false).

(** The characters [0] to [9]. *)
Definition esDigito (c : rune) : Prop := 0x30 <= c <= 0x39.

Definition esDigitob (c : rune) : bool := negb ((c <? 0x30) || (0x39 <? c)).

(** A byte of a rune is the rune itself (ASCII) or is not ASCII. *)
Definition byteDe (r : rune) (a : ascii) : Prop :=
  code a = r \/ RuneSelf <= code a.

(** A byte of white space: neither [@] nor [.] nor any other printable ASCII
    character. *)
Definition byteBlanco (a : ascii) : Prop :=
  exists r, IsSpace r = true /\ byteDe r a.

(** Nothing is left to trim on the left, respectively on the right. *)
Definition sinBlancoIzq (f : rune -> bool) (s : gostring) : Prop :=
  s = [] \/ f (fst (DecodeRune s)) = false.

Definition sinBlancoDer (f : rune -> bool) (s : gostring) : Prop :=
  s = [] \/ f (fst (DecodeLastRune s)) = false.

Definition arroba : ascii := "@"%char.

Definition punto : ascii := "."%char.

(** ** Responses and requests *)

Definition duplicadoCorreo : Respuesta :=
  responderError StatusConflict "El correo ya se encuentra registrado".

Definition duplicadoTelefono : Respuesta :=
  responderError StatusConflict "El teléfono ya se encuentra registrado".

Definition registrado : Respuesta :=
  mkRespuesta StatusCreated [] (CuerpoTexto cuerpoRegistrado).

Definition credencialesInvalidas : Respuesta :=
  responderError StatusUnauthorized "Correo o contraseña incorrectos".

(** The user that [registroHandler] builds from a request. *)
Definition usuarioDe (req : RegistroRequest) : Usuario :=
  mkUsuario (rCorreo req) (rTelefono req) (rPassword req).

(** The claim set that [loginHandler] builds. *)
Definition claimsDe (correo : gostring) (exp : Z) : Jwt.MapClaims :=
  [ (go "correo", Jwt.VString correo); (go "exp", Jwt.VInt64 exp) ].

(** The request passes the presence and format checks. *)
Definition bienFormada (T : Tables) (req : RegistroRequest) : Prop :=
  rCorreo req <> [] /\ rTelefono req <> [] /\ rPassword req <> []
  /\ validarCorreo (rCorreo req) = true
  /\ validarTelefono (rTelefono req) = true
  /\ validarPassword T (rPassword req) = true.

(** No user of [l] shares the email or the phone of the request. *)
Definition ninguno (l : list Usuario) (req : RegistroRequest) : Prop :=
  forall v, In v l ->
    Correo v <> rCorreo req /\ Telefono v <> rTelefono req.

(** No two stored users share an email, and no two share a phone. *)
Definition sinDuplicados (us : list Usuario) : Prop :=
  NoDup (map Correo us) /\ NoDup (map Telefono us).

(** ** Two readings of the specification that the code does not follow *)

(** Whenever the email of a well-formed request is stored, the error is the
    duplicate-email one, and the duplicate-phone error comes only when no
    stored user has the email. *)
Definition correoPrimero : Prop :=
  forall (T : Tables) (m : Mundo) (req : RegistroRequest),
    bienFormada T req ->
    ((exists u, In u (usuarios m) /\ Correo u = rCorreo req) ->
     fst (registroHandler T (Some req) m) = duplicadoCorreo)
    /\ (fst (registroHandler T (Some req) m) = duplicadoTelefono ->
        ~ exists u, In u (usuarios m) /\ Correo u = rCorreo req).

(** The expiry in the token of a successful login is the timestamp returned
    with it plus 24 hours (compared in whole seconds, the unit of the
    expiry). *)
Definition expiraTrasFecha : Prop :=
  forall (m : Mundo) (req : LoginRequest) (cab : list (gostring * gostring))
         (tok : Jwt.TokenString) (fecha : Time) (m' : Mundo),
    loginHandler (Some req) m
    = (mkRespuesta StatusOK cab (CuerpoLogin (mkLoginResponse tok fecha)), m') ->
    tok = Jwt.Firmado Jwt.SigningMethodHS256
                      (claimsDe (lCorreo req) (Unix (Add fecha (Hour * 24))))
                      jwtKey.

(** ** Sample data *)

(** A sample of the tables of package unicode: the Greek capitals Α–Ρ, the
    Greek small letters α–ω and the Arabic-Indic digits. *)
Definition tablasMuestra : Tables :=
  mkTables [mkRange 0x391 0x3A1 1] [mkRange 0x3B1 0x3C9 1]
           [mkRange 0x660 0x669 1].

Definition ana : Usuario :=
  mkUsuario (go "a@b.com") (go "5551234567") (go "Pass123@").

Definition carlos : Usuario :=
  mkUsuario (go "c@d.com") (go "5559999999") (go "Pass123@").

Definition peticionAna : RegistroRequest :=
  mkRegistroRequest (go "a@b.com") (go "5551234567") (go "Pass123@").

Definition peticionCarlos : RegistroRequest :=
  mkRegistroRequest (go "c@d.com") (go "5559999999") (go "Pass123@").

(** The email of [ana] with another phone. *)
Definition peticionAnaOtroTelefono : RegistroRequest :=
  mkRegistroRequest (go "a@b.com") (go "5559999999") (go "Pass123@").

(** The email of [carlos] with the phone of [ana]. *)
Definition peticionCruzada : RegistroRequest :=
  mkRegistroRequest (go "c@d.com") (go "5551234567") (go "Pass123@").

Definition peticionConEspacios : RegistroRequest :=
  mkRegistroRequest (go " a@b.com ") (go "5551234567") (go "Pass123@").

Definition loginAna : LoginRequest :=
  mkLoginRequest (go "a@b.com") (go "Pass123@").

Definition relojFijo : nat -> Time := fun _ => 0.

(** The clock reads 0.999999999 s and then 1.000000500 s. *)
Definition relojCambioDeSegundo : nat -> Time :=
  fun n => match n with O => 999999999 | _ => 1000000500 end.

(** [ana] is registered. *)
Definition mundoAna : Mundo :=
  mkMundo [ana] relojFijo 0 [go "Usuario registrado correctamente"].

Definition mundoCambioDeSegundo : Mundo :=
  mkMundo [ana] relojCambioDeSegundo 0 [].

(** [ana] and then [carlos] are registered. *)
Definition mundoDos : Mundo :=
  mkMundo [ana; carlos] relojFijo 0
          [go "Usuario registrado correctamente";
           go "Usuario registrado correctamente"].

(** Two requests with the email of [ana], each in its goroutine. *)
Definition dosGorutinas : list Gorutina :=
  [Recibida (Some peticionAna); Recibida (Some peticionAnaOtroTelefono)].

(** ** Vocabulary of the further properties *)

Definition guion : ascii := "-"%char.

Definition guionBajo : ascii := "_"%char.

Definition primerByte (s : gostring) : option ascii := hd_error s.

Definition ultimoByte (s : gostring) : option ascii := hd_error (rev s).

(** Two dots in a row somewhere in [s]. *)
Definition puntosSeguidos (s : gostring) : Prop :=
  exists x y, s = x ++ punto :: punto :: y.

(** The bytes [a-z], [A-Z], [0-9], [.], [-], [_] and [@]. *)
Definition byteCorreo (a : ascii) : Prop :=
  0x61 <= code a <= 0x7A \/ 0x41 <= code a <= 0x5A \/ 0x30 <= code a <= 0x39
  \/ a = punto \/ a = guion \/ a = guionBajo \/ a = arroba.

(** The shape [validarCorreo] asks of the trimmed address. *)
Definition formaCorreo (t : gostring) : Prop :=
  exists parteLocal dominio,
    t = parteLocal ++ arroba :: dominio
    /\ ~ In arroba parteLocal /\ ~ In arroba dominio
    /\ 1 <= len parteLocal <= 64
    /\ primerByte parteLocal <> Some punto
    /\ ultimoByte parteLocal <> Some punto
    /\ ~ puntosSeguidos parteLocal
    /\ 1 <= len dominio <= 255
    /\ primerByte dominio <> Some punto /\ primerByte dominio <> Some guion
    /\ ultimoByte dominio <> Some punto /\ ultimoByte dominio <> Some guion
    /\ (exists d extension,
          dominio = d ++ punto :: extension
          /\ ~ In punto extension /\ 2 <= len extension)
    /\ Forall byteCorreo t.

(** Some user of [us] has the email or the phone of the request. *)
Definition comparte (us : list Usuario) (req : RegistroRequest) : Prop :=
  exists u, In u us
            /\ (Correo u = rCorreo req \/ Telefono u = rTelefono req).

(** The three fields of a stored user pass the validators. *)
Definition usuarioValido (T : Tables) (u : Usuario) : Prop :=
  Correo u <> [] /\ Telefono u <> [] /\ Password u <> []
  /\ validarCorreo (Correo u) = true
  /\ validarTelefono (Telefono u) = true
  /\ validarPassword T (Password u) = true.

(** How many of the responses are 201 Created. *)
Definition exitos (rs : list Respuesta) : nat :=
  List.length (filter (fun r => codigo r =? StatusCreated) rs).

(** How many of the four flags of [validarPassword] are set. *)
Definition cuenta (b : Banderas) : nat :=
  (Nat.b2n (tieneMayus b) + Nat.b2n (tieneMinus b)
   + Nat.b2n (tieneNumero b) + Nat.b2n (tieneEspecial b))%nat.

(** The credentials of a registration request, as a login request. *)
Definition loginDe (req : RegistroRequest) : LoginRequest :=
  mkLoginRequest (rCorreo req) (rPassword req).

(** The checks of [validarCorreo] on the two parts of the trimmed address
    [t], as one boolean. *)
Definition controlesCorreo (t parteLocal dominio : gostring) : bool :=
  negb ((len parteLocal =? 0) || (64 <? len parteLocal))
  && negb (HasPrefix parteLocal [punto] || HasSuffix parteLocal [punto])
  && negb (Contains parteLocal [punto; punto])
  && negb ((len dominio =? 0) || (255 <? len dominio))
  && Contains dominio [punto]
  && negb (HasPrefix dominio [punto] || HasSuffix dominio [punto]
           || HasPrefix dominio [guion] || HasSuffix dominio [guion])
  && negb (len (desde (LastIndex dominio [punto] + 1) dominio) <? 2)
  && caracteresValidos t.

(** The response to a login that finds a user. *)
Definition respuestaLogin (correo : gostring) (t1 t2 : Time) : Respuesta :=
  mkRespuesta StatusOK [(go "Content-Type", go "application/json")]
    (CuerpoLogin
       (mkLoginResponse
          (Jwt.Firmado Jwt.SigningMethodHS256
                       (claimsDe correo (Unix (Add t1 (Hour * 24)))) jwtKey)
          t2)).

(** * Properties *)

(** ** Bytes and string equality *)

Lemma code_range (a : ascii) : 0 <= code a < 256.
Proof.
  unfold code. pose proof (N_ascii_bounded a). lia.
Qed.

Lemma streq_spec (s t : gostring) : streq s t = true <-> s = t.
Proof.
  revert t. induction s as [|a s IH]; intros [|b t]; simpl; split;
    try congruence; try reflexivity.
  - intros H. apply andb_prop in H as [Hab Hst].
    apply Ascii.eqb_eq in Hab. apply IH in Hst. congruence.
  - intros H. injection H as -> ->. unfold byte_eqb.
    rewrite Ascii.eqb_refl. simpl. now apply IH.
Qed.

Lemma streq_false (s t : gostring) : streq s t = false <-> s <> t.
Proof.
  rewrite <- streq_spec. destruct (streq s t); split; congruence.
Qed.

Lemma len_nonneg (s : gostring) : 0 <= len s.
Proof. unfold len. lia. Qed.

Lemma len_app (s t : gostring) : len (s ++ t) = len s + len t.
Proof. unfold len. rewrite length_app. lia. Qed.

(** Turn boolean comparisons on [Z] into propositions, for [lia]. *)
Ltac boolZ :=
  repeat rewrite ?andb_true_iff, ?orb_true_iff, ?andb_false_iff,
    ?orb_false_iff, ?negb_true_iff, ?negb_false_iff, ?Z.leb_le, ?Z.leb_gt,
    ?Z.ltb_lt, ?Z.ltb_ge, ?Z.eqb_eq, ?Z.eqb_neq in *.

(** ** validarPassword *)

Section PasswordProps.
Variable T : Tables.

Lemma ContainsRune_especiales (c : rune) :
  ContainsRune especiales c = esEspecial c.
Proof.
  unfold ContainsRune, esEspecial.
  replace (runes especiales) with [0x40; 0x24; 0x26] by (vm_compute; reflexivity).
  cbn [existsb]. now rewrite orb_false_r, orb_assoc.
Qed.

Lemma especial_sin_clase (c : rune) :
  esEspecial c = true ->
  IsUpper T c = false /\ IsLower T c = false /\ IsDigit T c = false.
Proof.
  unfold esEspecial. intros H.
  apply orb_prop in H as [H|H]; [apply orb_prop in H as [H|H]|];
    apply Z.eqb_eq in H; subst c; repeat split; reflexivity.
Qed.

(** The flags after the loop, from the flags before it. *)
Lemma fold_clasificar (l : list rune) (b : Banderas) :
  let b' := fold_left (clasificar T) l b in
  tieneMayus b' = tieneMayus b || existsb (IsUpper T) l
  /\ tieneMinus b' =
     tieneMinus b || existsb (fun c => negb (IsUpper T c) && IsLower T c) l
  /\ tieneNumero b' =
     tieneNumero b
     || existsb (fun c => negb (IsUpper T c) && negb (IsLower T c)
                          && IsDigit T c) l
  /\ tieneEspecial b' =
     tieneEspecial b
     || existsb (fun c => negb (IsUpper T c) && negb (IsLower T c)
                          && negb (IsDigit T c) && esEspecial c) l.
Proof.
  revert b. induction l as [|c l IH]; intros b; cbn [fold_left existsb].
  - cbv zeta. now rewrite !orb_false_r.
  - specialize (IH (clasificar T b c)). cbv zeta in IH |- *.
    destruct IH as (H1 & H2 & H3 & H4). rewrite H1, H2, H3, H4.
    unfold clasificar. rewrite ContainsRune_especiales.
    destruct (IsUpper T c), (IsLower T c), (IsDigit T c), (esEspecial c),
      b as [[] [] [] []]; cbn; auto.
Qed.

Lemma existsb_contiene (P : rune -> bool) (s : gostring) :
  existsb P (runes s) = true <-> contiene P s.
Proof. unfold contiene. apply existsb_exists. Qed.

Lemma existsb_igual (P Q : rune -> bool) (l : list rune) :
  (forall c, P c = Q c) -> existsb P l = existsb Q l.
Proof.
  intros H. induction l as [|c l IH]; simpl; [reflexivity|].
  now rewrite H, IH.
Qed.

Hypothesis disjuntas : clasesDisjuntas T.

Lemma validarPassword_banderas (s : gostring) :
  validarPassword T s =
  negb ((len s <? 6) || (12 <? len s))
  && (existsb (IsUpper T) (runes s) && existsb (IsLower T) (runes s)
      && existsb (IsDigit T) (runes s) && existsb esEspecial (runes s)).
Proof.
  unfold validarPassword.
  destruct ((len s <? 6) || (12 <? len s)); [reflexivity|]. cbn [negb andb].
  destruct (fold_clasificar (runes s) (mkBanderas false false false false))
    as (H1 & H2 & H3 & H4).
  cbv zeta in H1, H2, H3, H4. rewrite H1, H2, H3, H4. cbn [tieneMayus
    tieneMinus tieneNumero tieneEspecial orb].
  f_equal; [f_equal; [f_equal|]|]; apply existsb_igual; intros c;
    destruct (disjuntas c) as [Hu Hl].
  - destruct (IsUpper T c); [|reflexivity].
    destruct (Hu eq_refl) as [-> _]. reflexivity.
  - destruct (IsUpper T c).
    + destruct (Hu eq_refl) as [_ ->]. reflexivity.
    + destruct (IsLower T c); [|reflexivity]. now rewrite (Hl eq_refl).
  - destruct (esEspecial c) eqn:He.
    + destruct (especial_sin_clase c He) as (-> & -> & ->). reflexivity.
    + now rewrite andb_false_r.
Qed.

End PasswordProps.

(** What the code decides, with the length counted in bytes: the password
    validator accepts [s] exactly when [len(s)], the number of bytes of [s],
    is between 6 and 12 and [s] has an upper-case letter, a lower-case
    letter, a decimal digit and one of [@], [$], [&] among its characters.
    The letter and digit classes are those of package unicode, whose tables
    list each code point under one general category. *)
Lemma validarPassword_acepta_sii (T : Tables) (s : gostring) :
  clasesDisjuntas T ->
  (validarPassword T s = true <->
   6 <= len s <= 12
   /\ contiene (IsUpper T) s /\ contiene (IsLower T) s
   /\ contiene (IsDigit T) s /\ contiene esEspecial s).
Proof.
  intros HT. rewrite (validarPassword_banderas T HT).
  rewrite <- !existsb_contiene.
  rewrite !andb_true_iff, negb_true_iff, orb_false_iff, Z.ltb_ge, Z.ltb_ge.
  tauto.
Qed.

(** Within Latin-1 the classes are disjoint whatever the tables say. *)
Lemma latin1_disjuntas (c : rune) :
  (latin1Lu c = true ->
   latin1Ll c = false /\ (0x30 <=? c) && (c <=? 0x39) = false /\ c <= MaxLatin1)
  /\ (latin1Ll c = true ->
      (0x30 <=? c) && (c <=? 0x39) = false /\ c <= MaxLatin1).
Proof.
  unfold latin1Lu, latin1Ll, entre, MaxLatin1. boolZ. lia.
Qed.

Lemma tablasMuestra_disjuntas : clasesDisjuntas tablasMuestra.
Proof.
  intros c. unfold IsUpper, IsLower, IsDigit, isExcludingLatin, enRango.
  cbn [tablasMuestra Upper Lower Digit existsb Lo Hi Stride].
  destruct (latin1_disjuntas c) as [Hu Hl].
  destruct (uint32 c <=? MaxLatin1) eqn:E.
  - split; intros H.
    + destruct (Hu H) as (-> & Hd & Hc). apply Z.leb_le in Hc. now rewrite Hc.
    + destruct (Hl H) as (Hd & Hc). apply Z.leb_le in Hc. now rewrite Hc.
  - unfold MaxLatin1. split; intros H; boolZ.
    + split; [lia|]. destruct (c <=? 255) eqn:E'; boolZ; lia.
    + destruct (c <=? 255) eqn:E'; boolZ; lia.
Qed.

(** C3 on the code: the comment of [validarPassword] asks for a length of
    6 to 12 characters, and the function compares [len(password)], which
    counts bytes.  The five characters of [Aa1@ñ] take six bytes and are
    accepted; the twelve characters of [Contraseña1@], with their upper-case
    letter, lower-case letters, digit and [@], take thirteen bytes and are
    rejected.  Neither answer depends on the tables of package unicode. *)
Theorem validarPassword_longitud_en_bytes (T : Tables) :
  (validarPassword T (go "Aa1@ñ") = true
   /\ List.length (runes (go "Aa1@ñ")) = 5%nat
   /\ len (go "Aa1@ñ") = 6)
  /\ (validarPassword T (go "Contraseña1@") = false
      /\ List.length (runes (go "Contraseña1@")) = 12%nat
      /\ len (go "Contraseña1@") = 13
      /\ contiene (IsUpper T) (go "Contraseña1@")
      /\ contiene (IsLower T) (go "Contraseña1@")
      /\ contiene (IsDigit T) (go "Contraseña1@")
      /\ contiene esEspecial (go "Contraseña1@")).
Proof.
  assert (runes (go "Contraseña1@")
          = [0x43; 0x6F; 0x6E; 0x74; 0x72; 0x61; 0x73; 0x65; 0xF1; 0x61;
             0x31; 0x40]) as Hr by (vm_compute; reflexivity).
  split; [repeat split; vm_compute; reflexivity|].
  split; [vm_compute; reflexivity|].
  split; [now rewrite Hr|]. split; [vm_compute; reflexivity|].
  unfold contiene. rewrite Hr. repeat split.
  - exists 0x43. split; [now left|reflexivity].
  - exists 0x6F. split; [right; now left|reflexivity].
  - exists 0x31. split; [do 10 right; now left|reflexivity].
  - exists 0x40. split; [do 11 right; now left|reflexivity].
Qed.

Lemma validarPassword_acepta_sii_witness :
  validarPassword tablasMuestra (go "Pass123@") = true <->
  6 <= len (go "Pass123@") <= 12
  /\ contiene (IsUpper tablasMuestra) (go "Pass123@")
  /\ contiene (IsLower tablasMuestra) (go "Pass123@")
  /\ contiene (IsDigit tablasMuestra) (go "Pass123@")
  /\ contiene esEspecial (go "Pass123@").
Proof.
  apply (validarPassword_acepta_sii tablasMuestra (go "Pass123@")).
  exact tablasMuestra_disjuntas.
Defined.

(** ** UTF-8 decoding *)

Lemma lor_ge_l (x y : Z) : 0 <= x -> 0 <= y -> x <= Z.lor x y.
Proof.
  intros Hx Hy. pose proof (Z.sub_lor_l_same_l y x) as H.
  assert (0 <= Z.land y (Z.lnot x)).
  { rewrite <- Z.ldiff_land. apply Z.ldiff_nonneg. now left. }
  lia.
Qed.

Lemma lor_ge_r (x y : Z) : 0 <= x -> 0 <= y -> y <= Z.lor x y.
Proof. intros Hx Hy. rewrite Z.lor_comm. now apply lor_ge_l. Qed.

Lemma land_mask (b : Z) (n : Z) :
  0 <= n -> Z.land b (Z.ones n) = b mod 2 ^ n.
Proof. apply Z.land_ones. Qed.

Lemma DecodeRune_ascii (a : ascii) (t : gostring) :
  code a < RuneSelf -> DecodeRune (a :: t) = (code a, 1).
Proof.
  intros H. unfold DecodeRune. apply Z.ltb_lt in H. now rewrite H.
Qed.

(** A rune that starts at a non-ASCII byte is not an ASCII character. *)
Lemma DecodeRune_no_ascii (a : ascii) (t : gostring) :
  RuneSelf <= code a -> RuneSelf <= fst (DecodeRune (a :: t)).
Proof.
  intros H. unfold DecodeRune, RuneSelf, RuneError, locb, hicb in *.
  pose proof (code_range a) as Ha.
  destruct (code a <? 128) eqn:E0; [apply Z.ltb_lt in E0; lia|].
  destruct (entre 194 223 (code a)) eqn:E2.
  { destruct t as [|a1 t]; [cbn; lia|].
    destruct (entre 128 191 (code a1)); [|cbn; lia]. cbn [fst].
    unfold entre in E2. boolZ.
    change 31 with (Z.ones 5). rewrite land_mask by lia.
    etransitivity; [|apply lor_ge_l].
    - rewrite Z.shiftl_mul_pow2 by lia.
      pose proof (Z.mod_pos_bound (code a) (2 ^ 5)).
      pose proof (Z.div_mod (code a) (2 ^ 5)). lia.
    - apply Z.shiftl_nonneg. apply Z.mod_pos_bound. lia.
    - apply Z.land_nonneg. right. lia. }
  destruct (entre 224 239 (code a)) eqn:E3.
  { destruct t as [|a1 [|a2 t]]; try (cbn; lia).
    destruct (entre (acceptLo (code a)) (acceptHi (code a)) (code a1)
              && entre 128 191 (code a2)) eqn:E; [|cbn; lia]. cbn [fst].
    pose proof (code_range a1) as Ha1. pose proof (code_range a2) as Ha2.
    unfold entre, acceptLo, acceptHi, locb, hicb in *.
    change 15 with (Z.ones 4). change 63 with (Z.ones 6).
    rewrite !land_mask by lia. rewrite !Z.shiftl_mul_pow2 by lia.
    pose proof (Z.mod_pos_bound (code a) (2 ^ 4)).
    pose proof (Z.div_mod (code a) (2 ^ 4)).
    pose proof (Z.mod_pos_bound (code a1) (2 ^ 6)).
    pose proof (Z.div_mod (code a1) (2 ^ 6)).
    pose proof (Z.mod_pos_bound (code a2) (2 ^ 6)).
    set (x0 := code a mod 2 ^ 4 * 2 ^ 12) in *.
    set (x1 := code a1 mod 2 ^ 6 * 2 ^ 6) in *.
    set (x2 := code a2 mod 2 ^ 6) in *.
    assert (0 <= x0) by (unfold x0; lia).
    assert (0 <= x1) by (unfold x1; lia).
    assert (0 <= x2) by (unfold x2; lia).
    pose proof (lor_ge_l x0 x1). pose proof (lor_ge_r x0 x1).
    pose proof (lor_ge_l (Z.lor x0 x1) x2).
    assert (128 <= x0 \/ 128 <= x1); [|lia].
    repeat match goal with
           | H : context [if ?c then _ else _] |- _ => destruct c eqn:?
           end; boolZ; unfold x0, x1; lia. }
  destruct (entre 240 244 (code a)) eqn:E4.
  { destruct t as [|a1 [|a2 [|a3 t]]]; try (cbn; lia).
    destruct (entre (acceptLo (code a)) (acceptHi (code a)) (code a1)
              && entre 128 191 (code a2) && entre 128 191 (code a3)) eqn:E;
      [|cbn; lia]. cbn [fst].
    pose proof (code_range a1) as Ha1. pose proof (code_range a2) as Ha2.
    pose proof (code_range a3) as Ha3.
    unfold entre, acceptLo, acceptHi, locb, hicb in *.
    change 7 with (Z.ones 3). change 63 with (Z.ones 6).
    rewrite !land_mask by lia. rewrite !Z.shiftl_mul_pow2 by lia.
    pose proof (Z.mod_pos_bound (code a) (2 ^ 3)).
    pose proof (Z.div_mod (code a) (2 ^ 3)).
    pose proof (Z.mod_pos_bound (code a1) (2 ^ 6)).
    pose proof (Z.div_mod (code a1) (2 ^ 6)).
    pose proof (Z.mod_pos_bound (code a2) (2 ^ 6)).
    pose proof (Z.mod_pos_bound (code a3) (2 ^ 6)).
    set (x0 := code a mod 2 ^ 3 * 2 ^ 18) in *.
    set (x1 := code a1 mod 2 ^ 6 * 2 ^ 12) in *.
    set (x2 := code a2 mod 2 ^ 6 * 2 ^ 6) in *.
    set (x3 := code a3 mod 2 ^ 6) in *.
    assert (0 <= x0) by (unfold x0; lia).
    assert (0 <= x1) by (unfold x1; lia).
    assert (0 <= x2) by (unfold x2; lia).
    assert (0 <= x3) by (unfold x3; lia).
    pose proof (lor_ge_l x0 x1). pose proof (lor_ge_r x0 x1).
    pose proof (lor_ge_l (Z.lor x0 x1) x2).
    pose proof (lor_ge_l (Z.lor (Z.lor x0 x1) x2) x3).
    assert (128 <= x0 \/ 128 <= x1); [|lia].
    repeat match goal with
           | H : context [if ?c then _ else _] |- _ => destruct c eqn:?
           end; boolZ; unfold x0, x1; lia. }
  cbn. lia.
Qed.

(** A test that only ASCII characters pass can be run on the bytes. *)
Lemma forallb_runesAux (P : rune -> bool) :
  (forall c, P c = true -> c < RuneSelf) ->
  forall (f : nat) (s : gostring), (List.length s <= f)%nat ->
    forallb P (runesAux f s) = forallb (fun a => P (code a)) s.
Proof.
  intros HP. induction f as [|f IH]; intros [|a t] Hf; simpl in Hf;
    try reflexivity; try lia.
  cbn [runesAux forallb].
  destruct (Z.ltb_spec (code a) RuneSelf) as [Ha|Ha].
  - rewrite (DecodeRune_ascii a t Ha). cbn [forallb]. unfold desde.
    change (skipn (Z.to_nat 1) (a :: t)) with t. rewrite IH by lia.
    reflexivity.
  - pose proof (DecodeRune_no_ascii a t Ha) as Hr.
    destruct (DecodeRune (a :: t)) as [r w]. cbn [fst] in Hr. cbn [forallb].
    assert (P r = false) as ->.
    { destruct (P r) eqn:E; [apply HP in E; lia|reflexivity]. }
    assert (P (code a) = false) as ->.
    { destruct (P (code a)) eqn:E; [apply HP in E; lia|reflexivity]. }
    reflexivity.
Qed.

Lemma forallb_runes (P : rune -> bool) (s : gostring) :
  (forall c, P c = true -> c < RuneSelf) ->
  forallb P (runes s) = forallb (fun a => P (code a)) s.
Proof. intros HP. now apply forallb_runesAux. Qed.

(** On ASCII text the characters are the bytes. *)
Lemma runesAux_ascii (f : nat) (s : gostring) :
  (List.length s <= f)%nat -> Forall (fun a => code a < RuneSelf) s ->
  runesAux f s = map code s.
Proof.
  revert s. induction f as [|f IH]; intros [|a t] Hf Hs; simpl in Hf;
    try reflexivity; try lia.
  inversion Hs as [|? ? Ha Ht]; subst. cbn [runesAux map].
  rewrite (DecodeRune_ascii a t Ha). unfold desde.
  change (skipn (Z.to_nat 1) (a :: t)) with t. now rewrite IH by (auto; lia).
Qed.

Lemma runes_ascii (s : gostring) :
  Forall (fun a => code a < RuneSelf) s -> runes s = map code s.
Proof. now apply runesAux_ascii. Qed.

(** ** validarTelefono *)

Lemma esDigitob_spec (c : rune) : esDigitob c = true <-> esDigito c.
Proof. unfold esDigitob, esDigito. boolZ. lia. Qed.

Lemma validarTelefono_bytes (s : gostring) :
  validarTelefono s = true <->
  len s = 10 /\ Forall (fun a => esDigito (code a)) s.
Proof.
  unfold validarTelefono. fold esDigitob.
  rewrite forallb_runes
    by (intros c Hc; apply esDigitob_spec in Hc; unfold esDigito, RuneSelf in *;
        lia).
  destruct (Z.eqb_spec (len s) 10) as [E|E]; cbn [negb].
  - rewrite forallb_forall, Forall_forall. split.
    + intros H. split; [exact E|]. intros a Ha. now apply esDigitob_spec, H.
    + intros [_ H] a Ha. now apply esDigitob_spec, H.
  - split; [discriminate|]. intros [H _]. contradiction.
Qed.

(** C6: the phone validator accepts [s] exactly when [s] is 10 characters
    long and each of them is one of the ASCII digits 0 to 9.  Counting bytes
    or counting the characters of the range loop gives the same answer, as a
    digit takes one byte.  A string of another length, or with a character
    that is not a digit, is rejected. *)
Theorem validarTelefono_acepta_sii (s : gostring) :
  (validarTelefono s = true <->
   len s = 10 /\ Forall (fun a => esDigito (code a)) s)
  /\ (validarTelefono s = true <->
      Z.of_nat (List.length (runes s)) = 10 /\ Forall esDigito (runes s))
  /\ (len s <> 10 -> validarTelefono s = false)
  /\ (~ Forall esDigito (runes s) -> validarTelefono s = false).
Proof.
  assert (Hb := validarTelefono_bytes s).
  assert (Hascii : Forall (fun a => esDigito (code a)) s ->
                   runes s = map code s).
  { intros H. apply runes_ascii. eapply Forall_impl; [|exact H].
    unfold esDigito, RuneSelf. intros a Ha. cbv beta in Ha. lia. }
  assert (Hr : Forall esDigito (runes s) <->
               Forall (fun a => esDigito (code a)) s).
  { rewrite !Forall_forall. split; intros H.
    - assert (forallb esDigitob (runes s) = true) as Hf.
      { apply forallb_forall. intros c Hc. now apply esDigitob_spec, H. }
      rewrite forallb_runes in Hf
        by (intros c Hc; apply esDigitob_spec in Hc;
            unfold esDigito, RuneSelf in *; lia).
      rewrite forallb_forall in Hf. intros a Ha.
      now apply esDigitob_spec, Hf.
    - assert (Forall (fun a => esDigito (code a)) s) as HF
          by now apply Forall_forall.
      rewrite (Hascii HF). intros c Hc. apply in_map_iff in Hc as (a & <- & Ha).
      now apply H. }
  assert (Hc : validarTelefono s = true <->
               Z.of_nat (List.length (runes s)) = 10 /\ Forall esDigito (runes s)).
  { rewrite Hb, Hr. split; intros [Hl HF]; (split; [|exact HF]);
      rewrite (Hascii HF), length_map in *; exact Hl. }
  split; [exact Hb|]. split; [exact Hc|]. split.
  - intros Hl. destruct (validarTelefono s); [|reflexivity].
    destruct (proj1 Hb eq_refl). contradiction.
  - intros Hn. destruct (validarTelefono s); [|reflexivity].
    destruct (proj1 Hc eq_refl). contradiction.
Qed.

(** ** package strings with a one-byte pattern *)

Lemma hasta_app (l d : gostring) : hasta (len l) (l ++ d) = l.
Proof.
  unfold hasta, len. rewrite Nat2Z.id, firstn_app, Nat.sub_diag, firstn_all.
  cbn. apply app_nil_r.
Qed.

Lemma desde_app (l d : gostring) : desde (len l) (l ++ d) = d.
Proof.
  unfold desde, len. rewrite Nat2Z.id, skipn_app, Nat.sub_diag, skipn_all.
  reflexivity.
Qed.

Lemma desde_app_cons (l d : gostring) (c : ascii) :
  desde (len l + 1) (l ++ c :: d) = d.
Proof.
  replace (len l + 1) with (len (l ++ [c])) by (rewrite len_app; reflexivity).
  replace (l ++ c :: d) with ((l ++ [c]) ++ d) by now rewrite <- app_assoc.
  apply desde_app.
Qed.

Lemma HasPrefix_nil (s : gostring) : HasPrefix s [] = true.
Proof. now destruct s. Qed.

Lemma HasPrefix_byte (s : gostring) (c : ascii) :
  HasPrefix s [c] = match s with a :: _ => byte_eqb a c | [] => false end.
Proof.
  destruct s as [|a t]; cbn; [reflexivity|].
  rewrite HasPrefix_nil. apply andb_true_r.
Qed.

(** [Index] with a one-byte pattern: the pattern is absent, or [s] splits at
    its first occurrence. *)
Lemma Index_byte (c : ascii) (s : gostring) :
  (Index s [c] = -1 /\ ~ In c s)
  \/ (exists l d, s = l ++ c :: d /\ ~ In c l /\ Index s [c] = len l).
Proof.
  induction s as [|a t IH].
  - left. cbn. auto.
  - cbn [Index]. rewrite HasPrefix_byte. unfold byte_eqb.
    destruct (Ascii.eqb_spec a c) as [->|Hac].
    + right. exists [], t. cbn. auto.
    + destruct IH as [[Hi Hn]|(l & d & -> & Hn & Hi)]; rewrite Hi.
      * left. cbn. split; [reflexivity|]. intros [H|H]; auto.
      * right. exists (a :: l), d. pose proof (len_nonneg l) as Hlen.
        destruct (Z.ltb_spec (len l) 0) as [?|_]; [lia|].
        repeat split.
        -- intros [H|H]; auto.
        -- unfold len. cbn [List.length]. lia.
Qed.

(** [LastIndex] with a one-byte pattern: the pattern is absent, or [s]
    splits at its last occurrence. *)
Lemma LastIndex_byte (c : ascii) (s : gostring) :
  (LastIndex s [c] = -1 /\ ~ In c s)
  \/ (exists l d, s = l ++ c :: d /\ ~ In c d /\ LastIndex s [c] = len l).
Proof.
  induction s as [|a t IH].
  - left. cbn. auto.
  - cbn [LastIndex]. rewrite HasPrefix_byte. unfold byte_eqb.
    destruct IH as [[Hi Hn]|(l & d & -> & Hn & Hi)]; rewrite Hi.
    + cbn. destruct (Ascii.eqb_spec a c) as [->|Hac].
      * right. exists [], t. cbn. auto.
      * left. split; [reflexivity|]. intros [H|H]; auto.
    + right. exists (a :: l), d. pose proof (len_nonneg l) as Hlen.
      destruct (Z.leb_spec 0 (len l)) as [_|?]; [|lia].
      repeat split; auto. unfold len. cbn [List.length]. lia.
Qed.

Lemma Contains_byte (c : ascii) (s : gostring) :
  Contains s [c] = true <-> In c s.
Proof.
  unfold Contains.
  destruct (Index_byte c s) as [[Hi Hn]|(l & d & -> & Hn & Hi)]; rewrite Hi.
  - split; [discriminate|contradiction].
  - pose proof (len_nonneg l) as Hlen. split; intros _.
    + apply in_or_app. right. now left.
    + now apply Z.leb_le.
Qed.

Lemma genSplit_uno (c : ascii) (f : nat) (s d : gostring) :
  (List.length s <= f)%nat -> genSplit f s [c] = [d] -> d = s /\ ~ In c s.
Proof.
  intros Hf H. destruct f as [|f].
  - destruct s; [|simpl in Hf; lia]. cbn in H. injection H as <-. auto.
  - cbn [genSplit] in H.
    destruct (Index_byte c s) as [[Hi Hn]|(l & r & -> & Hn & Hi)];
      rewrite Hi in H.
    + cbn in H. injection H as <-. auto.
    + pose proof (len_nonneg l) as Hlen.
      destruct (Z.ltb_spec (len l) 0) as [?|_]; [lia|].
      injection H as _ H. destruct f as [|f]; [discriminate H|].
      cbn [genSplit] in H.
      destruct (Index (desde (len l + len [c]) (l ++ c :: r)) [c] <? 0);
        discriminate H.
Qed.

(** Two parts come out of [Split] exactly when the separator occurs once,
    between them. *)
Lemma Split_dos (c : ascii) (s l d : gostring) :
  Split s [c] = [l; d] -> s = l ++ c :: d /\ ~ In c l /\ ~ In c d.
Proof.
  unfold Split. intros H. destruct s as [|a t]; [discriminate|].
  cbn [List.length genSplit] in H.
  destruct (Index_byte c (a :: t)) as [[Hi Hn]|(l' & r & E & Hn & Hi)];
    rewrite Hi in H; [discriminate|].
  pose proof (len_nonneg l') as Hlen.
  destruct (Z.ltb_spec (len l') 0) as [?|_]; [lia|].
  rewrite E in H. change (len [c]) with 1 in H.
  rewrite hasta_app, desde_app_cons in H. injection H as <- H.
  apply genSplit_uno in H.
  - destruct H as [<- Hd]. auto.
  - apply (f_equal (@List.length ascii)) in E.
    rewrite length_app in E. cbn [List.length] in E. lia.
Qed.

Lemma count_occ_una (c : ascii) (l d : gostring) :
  ~ In c l -> ~ In c d -> count_occ ascii_dec (l ++ c :: d) c = 1%nat.
Proof.
  intros Hl Hd. rewrite count_occ_app, count_occ_cons_eq by reflexivity.
  apply (count_occ_not_In ascii_dec) in Hl, Hd. lia.
Qed.

(** ** Widths and consumed bytes *)

Ltac casos_decode :=
  unfold DecodeRune;
  repeat match goal with
         | |- context [if ?c then _ else _] => destruct c eqn:?
         | |- context [match ?t with [] => _ | _ :: _ => _ end] =>
           is_var t; destruct t
         end.

Lemma DecodeRune_ancho (a : ascii) (t : gostring) :
  1 <= snd (DecodeRune (a :: t)) <= len (a :: t).
Proof.
  casos_decode; unfold len; cbn [snd List.length]; lia.
Qed.

Lemma DecodeRune_bytes (s : gostring) :
  Forall (byteDe (fst (DecodeRune s))) (hasta (snd (DecodeRune s)) s).
Proof.
  destruct s as [|a t]; [constructor|].
  assert (forall b, entre 128 191 (code b) = true -> RuneSelf <= code b) as Hc.
  { unfold entre, RuneSelf. intros b Hb. boolZ. lia. }
  assert (forall b lo, entre (acceptLo lo) (acceptHi lo) (code b) = true ->
                       RuneSelf <= code b) as Hc'.
  { unfold entre, acceptLo, acceptHi, locb, hicb, RuneSelf. intros b lo Hb.
    destruct (lo =? 224), (lo =? 240); boolZ; lia. }
  unfold locb, hicb in *.
  casos_decode; cbn [fst snd hasta firstn Z.to_nat Pos.to_nat Pos.iter_op
                     Nat.add]; unfold byteDe;
    repeat match goal with
           | H : _ && _ = true |- _ => apply andb_prop in H as [? ?]
           | H : (_ <? _) = false |- _ => apply Z.ltb_ge in H
           end;
    repeat (apply Forall_cons || apply Forall_nil);
    try (left; reflexivity); right; eauto.
Qed.

(** A rune other than [RuneError] is decoded from its own bytes alone. *)
Lemma DecodeRune_prefijo (s t : gostring) :
  fst (DecodeRune s) <> RuneError -> DecodeRune (s ++ t) = DecodeRune s.
Proof.
  intros H.
  destruct s as [|a0 [|a1 [|a2 [|a3 s]]]]; cbn [app];
    try (exfalso; apply H; reflexivity);
    revert H; unfold DecodeRune;
    repeat match goal with
           | |- context [if ?c then _ else _] => destruct c eqn:?
           end;
    cbn [fst]; try reflexivity; try congruence;
    destruct t; cbn [fst]; try reflexivity; try congruence;
    try (destruct t; cbn [fst]; try reflexivity; try congruence).
Qed.

Lemma nth_ultimo (s : gostring) :
  s <> [] -> desde (len s - 1) s = [nth (Z.to_nat (len s - 1)) s zero].
Proof.
  intros Hs. destruct (exists_last Hs) as (l & a & ->).
  replace (len (l ++ [a]) - 1) with (len l) by (rewrite len_app; cbn; lia).
  rewrite desde_app. unfold len. rewrite Nat2Z.id, app_nth2, Nat.sub_diag by lia.
  reflexivity.
Qed.

Lemma buscarInicio_le (f : nat) (s : gostring) (start lim : Z) :
  buscarInicio f s start lim <= start.
Proof.
  revert start. induction f as [|f IH]; intros start; cbn; [lia|].
  destruct (start <? lim); [lia|].
  destruct (RuneStart (byteAt s start)); [lia|].
  specialize (IH (start - 1)). lia.
Qed.

(** [DecodeLastRuneInString] on a non-empty string: the width is between 1
    and the length, and the bytes it covers are bytes of the rune. *)
Lemma DecodeLastRune_bytes (s : gostring) :
  s <> [] ->
  let '(r, size) := DecodeLastRune s in
  1 <= size <= len s /\ Forall (byteDe r) (desde (len s - size) s).
Proof.
  intros Hs. unfold DecodeLastRune.
  assert (0 < len s) as Hlen.
  { unfold len. destruct s; [contradiction|]. cbn [List.length]. lia. }
  destruct (Z.eqb_spec (len s) 0) as [?|_]; [lia|].
  assert (forall r, byteDe r (nth (Z.to_nat (len s - 1)) s zero) ->
                    1 <= 1 <= len s
                    /\ Forall (byteDe r) (desde (len s - 1) s)) as Huno.
  { intros r Hr. split; [lia|]. rewrite (nth_ultimo s Hs). now constructor. }
  unfold byteAt at 1 2.
  destruct (Z.ltb_spec (code (nth (Z.to_nat (len s - 1)) s zero)) RuneSelf)
    as [Hb|Hb].
  { apply Huno. now left. }
  set (start := Z.max 0 (buscarInicio 4 s (len s - 1 - 1)
                                      (Z.max 0 (len s - UTFMax)))).
  assert (0 <= start < len s) as Hstart.
  { pose proof (buscarInicio_le 4 s (len s - 1 - 1) (Z.max 0 (len s - UTFMax))).
    unfold start. lia. }
  pose proof (DecodeRune_bytes (desde start s)) as Hbytes.
  destruct (DecodeRune (desde start s)) as [r size]. cbn [fst snd] in Hbytes.
  destruct (Z.eqb_spec (start + size) (len s)) as [E|_].
  - split; [lia|]. replace (len s - size) with start by lia.
    unfold hasta in Hbytes. rewrite firstn_all2 in Hbytes; [exact Hbytes|].
    unfold desde. rewrite length_skipn. unfold len in *. lia.
  - apply Huno. now right.
Qed.

(** ** TrimSpace *)

Section Trim.
Variable f : rune -> bool.

Lemma desde_ancho (a : ascii) (t : gostring) :
  (List.length (desde (snd (DecodeRune (a :: t))) (a :: t))
   <= List.length t)%nat.
Proof.
  pose proof (DecodeRune_ancho a t) as H. unfold desde.
  rewrite length_skipn. cbn [List.length]. lia.
Qed.

(** The result of [trimLeft] is a suffix of its argument; the bytes dropped
    are bytes of runes that satisfy [f]. *)
Lemma trimLeft_sufijo (n : nat) (s : gostring) :
  exists pre, s = pre ++ trimLeft n f s
              /\ Forall (fun a => exists r, f r = true /\ byteDe r a) pre.
Proof.
  revert s. induction n as [|n IH]; intros s; cbn [trimLeft].
  - exists []. auto.
  - destruct s as [|a t]; [exists []; auto|].
    pose proof (DecodeRune_bytes (a :: t)) as Hb.
    destruct (DecodeRune (a :: t)) as [r w]. cbn [fst snd] in Hb.
    destruct (f r) eqn:Hf; [|exists []; auto].
    destruct (IH (desde w (a :: t))) as (pre & E & Hpre).
    exists (hasta w (a :: t) ++ pre). split.
    + rewrite <- app_assoc, <- E. unfold hasta, desde.
      now rewrite firstn_skipn.
    + apply Forall_app. split; [|exact Hpre].
      eapply Forall_impl; [|exact Hb]. intros b Hbr. eauto.
Qed.

Lemma trimLeft_sinBlanco (n : nat) (s : gostring) :
  (List.length s <= n)%nat -> sinBlancoIzq f (trimLeft n f s).
Proof.
  revert s. induction n as [|n IH]; intros s Hn; cbn [trimLeft].
  - left. destruct s; [reflexivity|simpl in Hn; lia].
  - destruct s as [|a t]; [now left|].
    pose proof (desde_ancho a t) as Hw.
    destruct (DecodeRune (a :: t)) as [r w] eqn:E. cbn [snd] in Hw.
    destruct (f r) eqn:Hf.
    + apply IH. simpl in Hn. lia.
    + right. now rewrite E.
Qed.

Lemma trimLeft_fijo (n : nat) (s : gostring) :
  sinBlancoIzq f s -> trimLeft n f s = s.
Proof.
  intros H. destruct n as [|n]; [reflexivity|]. cbn [trimLeft].
  destruct s as [|a t]; [reflexivity|].
  destruct H as [H|H]; [discriminate|].
  destruct (DecodeRune (a :: t)) as [r w]. cbn [fst] in H. now rewrite H.
Qed.

Lemma hasta_tamano (s : gostring) (size : Z) :
  s <> [] -> 1 <= size <= len s ->
  (List.length (hasta (len s - size) s) < List.length s)%nat.
Proof.
  intros Hs H. unfold hasta. rewrite length_firstn. unfold len in *. lia.
Qed.

(** The result of [trimRight] is a prefix of its argument; the bytes dropped
    are bytes of runes that satisfy [f]. *)
Lemma trimRight_prefijo (n : nat) (s : gostring) :
  exists post, s = trimRight n f s ++ post
               /\ Forall (fun a => exists r, f r = true /\ byteDe r a) post.
Proof.
  revert s. induction n as [|n IH]; intros s; cbn [trimRight].
  - exists []. now rewrite app_nil_r.
  - destruct s as [|a t]; [exists []; auto|].
    assert (a :: t <> []) as Hs by discriminate.
    pose proof (DecodeLastRune_bytes (a :: t) Hs) as Hb.
    destruct (DecodeLastRune (a :: t)) as [r size]. destruct Hb as [Hsize Hb].
    destruct (f r) eqn:Hf; [|exists []; now rewrite app_nil_r].
    destruct (IH (hasta (len (a :: t) - size) (a :: t))) as (post & E & Hpost).
    exists (post ++ desde (len (a :: t) - size) (a :: t)). split.
    + rewrite app_assoc, <- E. unfold hasta, desde.
      now rewrite firstn_skipn.
    + apply Forall_app. split; [exact Hpost|].
      eapply Forall_impl; [|exact Hb]. intros b Hbr. eauto.
Qed.

Lemma trimRight_sinBlanco (n : nat) (s : gostring) :
  (List.length s <= n)%nat -> sinBlancoDer f (trimRight n f s).
Proof.
  revert s. induction n as [|n IH]; intros s Hn; cbn [trimRight].
  - left. destruct s; [reflexivity|simpl in Hn; lia].
  - destruct s as [|a t]; [now left|].
    assert (a :: t <> []) as Hs by discriminate.
    pose proof (DecodeLastRune_bytes (a :: t) Hs) as Hb.
    destruct (DecodeLastRune (a :: t)) as [r size] eqn:E.
    destruct Hb as [Hsize _].
    pose proof (hasta_tamano (a :: t) size Hs Hsize) as Hlt.
    destruct (f r) eqn:Hf.
    + apply IH. lia.
    + right. now rewrite E.
Qed.

Lemma trimRight_fijo (n : nat) (s : gostring) :
  sinBlancoDer f s -> trimRight n f s = s.
Proof.
  intros H. destruct n as [|n]; [reflexivity|]. cbn [trimRight].
  destruct s as [|a t]; [reflexivity|].
  destruct H as [H|H]; [discriminate|].
  destruct (DecodeLastRune (a :: t)) as [r w]. cbn [fst] in H. now rewrite H.
Qed.

Hypothesis f_RuneError : f RuneError = false.

(** Cutting the end of a string cannot bring a rune that satisfies [f] to
    its front. *)
Lemma sinBlancoIzq_prefijo (s post : gostring) :
  sinBlancoIzq f (s ++ post) -> sinBlancoIzq f s.
Proof.
  intros [H|H].
  - left. now apply app_eq_nil in H.
  - destruct (f (fst (DecodeRune s))) eqn:E; [|now right].
    assert (fst (DecodeRune s) <> RuneError) as Hne by congruence.
    rewrite (DecodeRune_prefijo s post Hne) in H. congruence.
Qed.

Lemma TrimFunc_idempotente (s : gostring) :
  let t := TrimRightFunc (TrimLeftFunc s f) f in
  TrimRightFunc (TrimLeftFunc t f) f = t.
Proof.
  cbv zeta. unfold TrimRightFunc, TrimLeftFunc.
  set (l := trimLeft (List.length s) f s).
  set (t := trimRight (List.length l) f l).
  assert (sinBlancoIzq f l) as Hl by now apply trimLeft_sinBlanco.
  assert (sinBlancoDer f t) as Ht by now apply trimRight_sinBlanco.
  destruct (trimRight_prefijo (List.length l) l) as (post & E & _).
  fold t in E. rewrite E in Hl. apply sinBlancoIzq_prefijo in Hl.
  rewrite (trimLeft_fijo _ t Hl). now apply trimRight_fijo.
Qed.

End Trim.

Lemma TrimSpace_idempotente (s : gostring) :
  TrimSpace (TrimSpace s) = TrimSpace s.
Proof. apply (TrimFunc_idempotente IsSpace). reflexivity. Qed.

Lemma TrimSpace_partes (s : gostring) :
  exists pre post, s = pre ++ TrimSpace s ++ post
                   /\ Forall byteBlanco pre /\ Forall byteBlanco post.
Proof.
  unfold TrimSpace, TrimRightFunc, TrimLeftFunc.
  destruct (trimLeft_sufijo IsSpace (List.length s) s) as (pre & E & Hpre).
  set (l := trimLeft (List.length s) IsSpace s) in *.
  destruct (trimRight_prefijo IsSpace (List.length l) l) as (post & E' & Hpost).
  exists pre, post. rewrite <- E'. auto.
Qed.

Lemma byteBlanco_no_imprimible (a : ascii) :
  byteBlanco a -> ~ (0x21 <= code a <= 0x7E).
Proof.
  intros (r & Hr & [E|E]); unfold RuneSelf in *; [|lia].
  subst r. pose proof (code_range a).
  unfold IsSpace, uint32, MaxLatin1 in Hr. rewrite Z.mod_small in Hr by lia.
  destruct (Z.leb_spec (code a) 255); [|lia]. boolZ. lia.
Qed.

(** ** validarCorreo *)

Lemma byteBlanco_ni_arroba_ni_punto (l : gostring) :
  Forall byteBlanco l -> ~ In arroba l /\ ~ In punto l.
Proof.
  intros H. rewrite Forall_forall in H.
  split; intros Hin; apply H, byteBlanco_no_imprimible in Hin; apply Hin;
    vm_compute; split; discriminate.
Qed.

(** What the checks of [validarCorreo] establish about the trimmed string
    on the way to [return caracteresValidos(correo)]. *)
Lemma validarCorreo_partes (s : gostring) :
  validarCorreo s = true ->
  exists parteLocal dominio,
    Split (TrimSpace s) (go "@") = [parteLocal; dominio]
    /\ 1 <= len parteLocal <= 64
    /\ 1 <= len dominio <= 255
    /\ Contains dominio (go ".") = true
    /\ 2 <= len (desde (LastIndex dominio (go ".") + 1) dominio)
    /\ caracteresValidos (TrimSpace s) = true.
Proof.
  unfold validarCorreo. intros H.
  destruct (streq (TrimSpace s) []); [discriminate|].
  destruct (Split (TrimSpace s) (go "@")) as [|l [|d [|? ?]]];
    try discriminate.
  destruct ((len l =? 0) || (64 <? len l)) eqn:E1; [discriminate|].
  destruct (HasPrefix l (go ".") || HasSuffix l (go ".")); [discriminate|].
  destruct (Contains l (go "..")); [discriminate|].
  destruct ((len d =? 0) || (255 <? len d)) eqn:E2; [discriminate|].
  destruct (Contains d (go ".")) eqn:E3; [|discriminate]. cbn [negb] in H.
  destruct (HasPrefix d (go ".") || HasSuffix d (go ".")
            || HasPrefix d (go "-") || HasSuffix d (go "-")); [discriminate|].
  destruct (len (desde (LastIndex d (go ".") + 1) d) <? 2) eqn:E4;
    [discriminate|].
  exists l, d. pose proof (len_nonneg l). pose proof (len_nonneg d).
  boolZ. repeat split; auto; lia.
Qed.

(** C5: a string the email validator accepts has exactly one [@], and what
    follows the last [.] of its domain part (the part after the [@]) is at
    least 2 bytes long. *)
Theorem validarCorreo_forma (s : gostring) :
  validarCorreo s = true ->
  count_occ ascii_dec s arroba = 1%nat
  /\ exists parteLocal dominio extension,
       s = parteLocal ++ arroba :: dominio ++ punto :: extension
       /\ ~ In arroba parteLocal
       /\ ~ In arroba (dominio ++ punto :: extension)
       /\ ~ In punto extension
       /\ 2 <= len extension.
Proof.
  intros H.
  destruct (validarCorreo_partes s H) as (l & d & Hsplit & _ & _ & Hc & Hext & _).
  change (go "@") with [arroba] in Hsplit. change (go ".") with [punto] in *.
  apply Split_dos in Hsplit as (Et & Hl & Hd).
  apply Contains_byte in Hc.
  destruct (LastIndex_byte punto d) as [[_ Hn]|(d0 & e & -> & He & Hi)];
    [contradiction|].
  rewrite Hi, desde_app_cons in Hext.
  destruct (TrimSpace_partes s) as (pre & post & Es & Hpre & Hpost).
  apply byteBlanco_ni_arroba_ni_punto in Hpre as [Hpre _].
  apply byteBlanco_ni_arroba_ni_punto in Hpost as [Hpost Hpost'].
  assert (s = (pre ++ l) ++ arroba :: d0 ++ punto :: (e ++ post)) as E.
  { rewrite Es, Et. rewrite <- !app_assoc. cbn [app]. rewrite <- !app_assoc.
    reflexivity. }
  assert (~ In arroba (pre ++ l)) as Hl'.
  { intros Hin. apply in_app_or in Hin as [?|?]; contradiction. }
  assert (~ In arroba (d0 ++ punto :: e ++ post)) as Hd'.
  { intros Hin. apply Hd. apply in_app_or in Hin as [Hin|[Hin|Hin]].
    - apply in_or_app. now left.
    - discriminate Hin.
    - apply in_app_or in Hin as [Hin|Hin]; [|contradiction].
      apply in_or_app. right. right. exact Hin. }
  split.
  - rewrite E. now apply count_occ_una.
  - exists (pre ++ l), d0, (e ++ post). repeat split; auto.
    + intros Hin. apply in_app_or in Hin as [?|?]; contradiction.
    + rewrite len_app. pose proof (len_nonneg post). lia.
Qed.

Lemma validarCorreo_forma_witness :
  validarCorreo (go " usuario@example.com ") = true
  /\ count_occ ascii_dec (go " usuario@example.com ") arroba = 1%nat
  /\ exists parteLocal dominio extension,
       go " usuario@example.com "
       = parteLocal ++ arroba :: dominio ++ punto :: extension
       /\ ~ In arroba parteLocal
       /\ ~ In arroba (dominio ++ punto :: extension)
       /\ ~ In punto extension
       /\ 2 <= len extension.
Proof.
  split; [vm_compute; reflexivity|].
  apply (validarCorreo_forma (go " usuario@example.com ")).
  vm_compute. reflexivity.
Defined.

(** Trimming white space off both ends does not change the verdict of the
    email validator. *)
Lemma validarCorreo_TrimSpace (s : gostring) :
  validarCorreo (TrimSpace s) = validarCorreo s.
Proof.
  unfold validarCorreo. now rewrite TrimSpace_idempotente.
Qed.

(** ** registroHandler *)

(** The duplicate loop, by the first user that shares the email or the
    phone of the request. *)
Lemma revisarDuplicados_casos (us : list Usuario) (req : RegistroRequest) :
  (revisarDuplicados us req = None /\ ninguno us req)
  \/ (exists l u r, us = l ++ u :: r /\ ninguno l req
        /\ ((Correo u = rCorreo req
             /\ revisarDuplicados us req = Some duplicadoCorreo)
            \/ (Correo u <> rCorreo req /\ Telefono u = rTelefono req
                /\ revisarDuplicados us req = Some duplicadoTelefono))).
Proof.
  induction us as [|u us IH].
  - left. split; [reflexivity|]. intros v [].
  - cbn [revisarDuplicados].
    destruct (streq (Correo u) (rCorreo req)) eqn:Ec.
    { right. exists [], u, us. apply streq_spec in Ec.
      repeat split; try (intros v []); auto. }
    apply streq_false in Ec.
    destruct (streq (Telefono u) (rTelefono req)) eqn:Et.
    { right. exists [], u, us. apply streq_spec in Et.
      repeat split; try (intros v []); auto. }
    apply streq_false in Et.
    destruct IH as [[Hn Hall]|(l & v & r & -> & Hl & Hv)].
    + left. split; [exact Hn|]. intros w [<-|Hw]; auto.
    + right. exists (u :: l), v, r. split; [reflexivity|]. split.
      * intros w [<-|Hw]; auto.
      * exact Hv.
Qed.

Lemma verificar_usuarios (T : Tables) (body : option RegistroRequest)
  (m : Mundo) :
  usuarios (snd (verificar T body m)) = usuarios m.
Proof.
  unfold verificar. destruct body as [req|]; [|reflexivity].
  repeat match goal with
         | |- context [if ?c then _ else _] => destruct c
         end; try reflexivity.
  destruct (revisarDuplicados (usuarios m) req); reflexivity.
Qed.

(** A well-formed request reaches the duplicate loop. *)
Lemma verificar_bienFormada (T : Tables) (req : RegistroRequest) (m : Mundo) :
  bienFormada T req ->
  verificar T (Some req) m =
  match revisarDuplicados (usuarios m) req with
  | Some resp => (inl resp, m)
  | None => (inr req, m)
  end.
Proof.
  intros (H1 & H2 & H3 & H4 & H5 & H6). unfold verificar.
  apply streq_false in H1, H2, H3. rewrite H1, H2, H3, H4, H5, H6.
  reflexivity.
Qed.

(** A request that reaches the line "Registro exitoso" is well formed and
    met no duplicate. *)
Lemma verificar_inr (T : Tables) (body : option RegistroRequest)
  (m : Mundo) (req : RegistroRequest) (m' : Mundo) :
  verificar T body m = (inr req, m') ->
  body = Some req /\ m' = m /\ bienFormada T req
  /\ revisarDuplicados (usuarios m) req = None.
Proof.
  unfold verificar, bienFormada. destruct body as [r|]; [|discriminate].
  destruct (streq (rCorreo r) []) eqn:E1; [discriminate|].
  destruct (streq (rTelefono r) []) eqn:E2; [discriminate|].
  destruct (streq (rPassword r) []) eqn:E3; [discriminate|].
  destruct (validarCorreo (rCorreo r)) eqn:E4; [|discriminate].
  destruct (validarTelefono (rTelefono r)) eqn:E5; [|discriminate].
  destruct (validarPassword T (rPassword r)) eqn:E6; [|discriminate].
  cbn [negb]. destruct (revisarDuplicados (usuarios m) r) eqn:E7;
    [discriminate|].
  intros H. injection H as <- <-. apply streq_false in E1, E2, E3.
  rewrite E4, E5, E6. repeat split; auto.
Qed.

(** A response of [verificar] is one of the error responses. *)
Lemma verificar_inl (T : Tables) (body : option RegistroRequest)
  (m : Mundo) (resp : Respuesta) (m' : Mundo) :
  verificar T body m = (inl resp, m') ->
  codigo resp = StatusBadRequest \/ codigo resp = StatusConflict.
Proof.
  unfold verificar. destruct body as [r|].
  - repeat match goal with
           | |- context [if ?c then _ else _] => destruct c
           end;
      try (intros H; injection H as <- _; now left).
    destruct (revisarDuplicados_casos (usuarios m) r)
      as [[-> _]|(l & u & t & _ & _ & [[_ ->]|(_ & _ & ->)])];
      [discriminate| |]; intros H; injection H as <- _; now right.
  - intros H; injection H as <- _; now left.
Qed.

(** C4: a registration that fails, for a missing field, an invalid format
    or a duplicate email or phone, leaves the registry as it was; the
    registry changes only on success, by one user appended, built from
    the three fields of the request. *)
Theorem registro_solo_inserta_en_exito (T : Tables)
  (body : option RegistroRequest) (m : Mundo) :
  let '(resp, m') := registroHandler T body m in
  ((codigo resp = StatusBadRequest \/ codigo resp = StatusConflict)
   /\ usuarios m' = usuarios m)
  \/ (resp = registrado
      /\ exists req, body = Some req /\ bienFormada T req
                     /\ usuarios m' = usuarios m ++ [usuarioDe req]).
Proof.
  unfold registroHandler.
  pose proof (verificar_usuarios T body m) as Hu.
  destruct (verificar T body m) as [[resp|req] m'] eqn:E; cbn [snd] in Hu.
  - left. split; [|exact Hu]. eapply verificar_inl; eassumption.
  - right. apply verificar_inr in E as (-> & -> & Hbf & _).
    split; [reflexivity|]. exists req. auto.
Qed.

(** *** Duplicates *)

Lemma duplicados_distintos : duplicadoCorreo <> duplicadoTelefono.
Proof. discriminate. Qed.

(** C1, as the code has it: for a well-formed request whose email is already
    stored, registration fails with a duplicate error and stores nothing.
    The loop compares email and then phone user by user, so the first
    stored user that shares either decides: the error is the duplicate-email
    one exactly when that user has the email of the request, and the
    duplicate-phone one exactly when that user has its phone and another
    email. *)
Theorem registro_duplicado (T : Tables) (m : Mundo) (req : RegistroRequest) :
  bienFormada T req ->
  (exists u, In u (usuarios m) /\ Correo u = rCorreo req) ->
  let resp := fst (registroHandler T (Some req) m) in
  (resp = duplicadoCorreo \/ resp = duplicadoTelefono)
  /\ snd (registroHandler T (Some req) m) = m
  /\ (resp = duplicadoCorreo <->
      exists l u r, usuarios m = l ++ u :: r /\ ninguno l req
                    /\ Correo u = rCorreo req)
  /\ (resp = duplicadoTelefono <->
      exists l u r, usuarios m = l ++ u :: r /\ ninguno l req
                    /\ Correo u <> rCorreo req
                    /\ Telefono u = rTelefono req).
Proof.
  intros Hbf (u0 & Hin & Hu0). cbv zeta. unfold registroHandler.
  rewrite (verificar_bienFormada T req m Hbf).
  assert (forall l u r, usuarios m = l ++ u :: r -> ninguno l req ->
            forall l' u' r', usuarios m = l' ++ u' :: r' -> ninguno l' req ->
              (Correo u = rCorreo req \/ Telefono u = rTelefono req) ->
              (Correo u' = rCorreo req \/ Telefono u' = rTelefono req) ->
              u = u') as Hprimero.
  { intros l u r E Hl l' u' r' E' Hl' Hu Hu'. rewrite E in E'.
    clear E. revert l' E' Hl'.
    induction l as [|a l IH]; intros [|a' l'] E' Hl'.
    - now injection E'.
    - injection E' as <- _. destruct (Hl' u (or_introl eq_refl)).
      destruct Hu; contradiction.
    - injection E' as -> _. destruct (Hl u' (or_introl eq_refl)).
      destruct Hu'; contradiction.
    - injection E' as <- E'. apply (IH (fun v Hv => Hl v (or_intror Hv)) l' E').
      intros v Hv. apply Hl'. now right. }
  destruct (revisarDuplicados_casos (usuarios m) req)
    as [[_ Hn]|(l & u & r & E & Hl & [[Hu ->]|(Hu & Ht & ->)])];
    cbn [fst snd].
  - destruct (Hn u0 Hin) as [Hc _]. contradiction.
  - repeat split; auto.
    + exists l, u, r. auto.
    + intros H. exfalso. now apply duplicados_distintos.
    + intros (l' & u' & r' & E' & Hl' & Hu' & Ht').
      assert (u = u') as <- by (eapply Hprimero; eauto). contradiction.
  - repeat split; auto.
    + intros H. exfalso. now apply duplicados_distintos.
    + intros (l' & u' & r' & E' & Hl' & Hu').
      assert (u = u') as <- by (eapply Hprimero; eauto). contradiction.
    + exists l, u, r. auto.
Qed.

(** [mundoDos] is what two successful registrations leave behind. *)
Lemma mundoDos_alcanzable (T : Tables) :
  servir T [PRegistro (Some peticionAna); PRegistro (Some peticionCarlos)]
         (mundoInicial relojFijo)
  = ([registrado; registrado], mundoDos).
Proof. vm_compute. reflexivity. Qed.

Lemma peticionCruzada_bienFormada (T : Tables) : bienFormada T peticionCruzada.
Proof. repeat split; try discriminate; vm_compute; reflexivity. Qed.

Lemma peticionCruzada_respuesta (T : Tables) :
  registroHandler T (Some peticionCruzada) mundoDos
  = (duplicadoTelefono, mundoDos).
Proof. vm_compute. reflexivity. Qed.

(** With [ana] stored before [carlos], the request with the email of
    [carlos] and the phone of [ana] is answered with the duplicate-phone
    error, whatever the tables of package unicode. *)
Lemma correoPrimero_falla : ~ correoPrimero.
Proof.
  intros H.
  destruct (H tablasMuestra mundoDos peticionCruzada
              (peticionCruzada_bienFormada tablasMuestra)) as [H1 _].
  rewrite peticionCruzada_respuesta in H1.
  apply duplicados_distintos. symmetry. apply H1.
  exists carlos. split; [right; left; reflexivity|reflexivity].
Qed.

Lemma registro_duplicado_witness :
  let resp := fst (registroHandler tablasMuestra (Some peticionCruzada)
                                   mundoDos) in
  (resp = duplicadoCorreo \/ resp = duplicadoTelefono)
  /\ snd (registroHandler tablasMuestra (Some peticionCruzada) mundoDos)
     = mundoDos
  /\ (resp = duplicadoCorreo <->
      exists l u r, usuarios mundoDos = l ++ u :: r
                    /\ ninguno l peticionCruzada
                    /\ Correo u = rCorreo peticionCruzada)
  /\ (resp = duplicadoTelefono <->
      exists l u r, usuarios mundoDos = l ++ u :: r
                    /\ ninguno l peticionCruzada
                    /\ Correo u <> rCorreo peticionCruzada
                    /\ Telefono u = rTelefono peticionCruzada).
Proof.
  apply (registro_duplicado tablasMuestra mundoDos peticionCruzada).
  - repeat split; try discriminate; vm_compute; reflexivity.
  - exists carlos. split; [right; left; reflexivity|reflexivity].
Defined.

(** What a successful registration stores is the request, byte for byte. *)
Lemma registro_guarda_correo_literal (T : Tables) (req : RegistroRequest)
  (m : Mundo) :
  fst (registroHandler T (Some req) m) = registrado ->
  usuarios (snd (registroHandler T (Some req) m))
  = usuarios m ++ [usuarioDe req].
Proof.
  unfold registroHandler.
  destruct (verificar T (Some req) m) as [[resp|r] m'] eqn:E; cbn [fst snd].
  - intros ->. apply verificar_inl in E. destruct E as [E|E]; discriminate E.
  - intros _. apply verificar_inr in E as (Hr & -> & _). now injection Hr as <-.
Qed.

(** C10: the email validator gives [s] the verdict it gives [s] without its
    leading and trailing white space.  So an address with white space around
    it passes, and a registration that succeeds stores the address as it
    came, white space included. *)
Theorem correo_con_espacios :
  (forall s, validarCorreo s = validarCorreo (TrimSpace s))
  /\ TrimSpace (go " a@b.com ") = go "a@b.com"
  /\ validarCorreo (go " a@b.com ") = true
  /\ (forall T req m,
        fst (registroHandler T (Some req) m) = registrado ->
        usuarios (snd (registroHandler T (Some req) m))
        = usuarios m ++ [mkUsuario (rCorreo req) (rTelefono req)
                                   (rPassword req)])
  /\ (forall T,
        registroHandler T (Some peticionConEspacios) (mundoInicial relojFijo)
        = (registrado,
           mkMundo [mkUsuario (go " a@b.com ") (go "5551234567")
                              (go "Pass123@")]
                   relojFijo 0 [go "Usuario registrado correctamente"])).
Proof.
  split; [intros s; symmetry; apply validarCorreo_TrimSpace|].
  split; [vm_compute; reflexivity|].
  split; [vm_compute; reflexivity|].
  split; [exact registro_guarda_correo_literal|].
  intros T. vm_compute. reflexivity.
Qed.

(** ** The registry under sequential service *)

Lemma NoDup_snoc {A : Type} (l : list A) (x : A) :
  NoDup l -> ~ In x l -> NoDup (l ++ [x]).
Proof.
  intros Hl Hx. induction Hl as [|y l Hy Hl IH]; cbn.
  - constructor; [intros []|constructor].
  - constructor.
    + intros Hin. apply in_app_or in Hin as [Hin|[<-|[]]]; [contradiction|].
      apply Hx. now left.
    + apply IH. intros Hin. apply Hx. now right.
Qed.

Lemma sinDuplicados_agregar (us : list Usuario) (req : RegistroRequest) :
  sinDuplicados us -> ninguno us req -> sinDuplicados (us ++ [usuarioDe req]).
Proof.
  intros [Hc Ht] Hn. unfold sinDuplicados. rewrite !map_app. cbn [map].
  split; apply NoDup_snoc; auto; intros Hin;
    apply in_map_iff in Hin as (v & Hv & Hin); destruct (Hn v Hin); auto.
Qed.

Lemma registroHandler_sinDuplicados (T : Tables)
  (body : option RegistroRequest) (m : Mundo) :
  sinDuplicados (usuarios m) ->
  sinDuplicados (usuarios (snd (registroHandler T body m))).
Proof.
  intros Hm. unfold registroHandler.
  pose proof (verificar_usuarios T body m) as Hu.
  destruct (verificar T body m) as [[resp|req] m'] eqn:E; cbn [snd] in *.
  - now rewrite Hu.
  - apply verificar_inr in E as (_ & -> & _ & Hnone). cbn.
    destruct (revisarDuplicados_casos (usuarios m) req)
      as [[_ Hn]|(l & u & r & _ & _ & [[_ Hs]|(_ & _ & Hs)])];
      try congruence.
    now apply sinDuplicados_agregar.
Qed.

Lemma loginHandler_usuarios (body : option LoginRequest) (m : Mundo) :
  usuarios (snd (loginHandler body m)) = usuarios m.
Proof.
  unfold loginHandler. destruct body as [req|]; [|reflexivity].
  destruct (streq (lCorreo req) []); [reflexivity|].
  destruct (streq (lPassword req) []); [reflexivity|].
  destruct (buscarUsuario (usuarios m) req); reflexivity.
Qed.

Lemma servir_sinDuplicados (T : Tables) (ps : list Peticion) (m : Mundo) :
  sinDuplicados (usuarios m) ->
  sinDuplicados (usuarios (snd (servir T ps m))).
Proof.
  revert m. induction ps as [|p ps IH]; intros m Hm; cbn [servir];
    [exact Hm|].
  destruct (atender T p m) as [r m1] eqn:E1.
  specialize (IH m1). destruct (servir T ps m1) as [rs m2]. cbn [snd] in *.
  apply IH. replace m1 with (snd (atender T p m)) by now rewrite E1.
  destruct p as [body|body]; cbn [atender].
  - now apply registroHandler_sinDuplicados.
  - now rewrite loginHandler_usuarios.
Qed.

(** C2: after any sequence of registration and login requests served one
    after the other from the empty registry, no two stored users share an
    email and no two share a phone. *)
Theorem registro_sin_duplicados (T : Tables) (reloj : nat -> Time)
  (ps : list Peticion) :
  sinDuplicados (usuarios (snd (servir T ps (mundoInicial reloj)))).
Proof.
  apply servir_sinDuplicados. split; constructor.
Qed.

(** ** loginHandler *)

Lemma buscarUsuario_None (us : list Usuario) (req : LoginRequest) :
  buscarUsuario us req = None <->
  forall u, In u us ->
    ~ (Correo u = lCorreo req /\ Password u = lPassword req).
Proof.
  induction us as [|u us IH]; cbn [buscarUsuario].
  - split; [intros _ v []|reflexivity].
  - destruct (streq (Correo u) (lCorreo req)
              && streq (Password u) (lPassword req)) eqn:E.
    + split; [discriminate|]. intros H. exfalso.
      apply andb_prop in E as [Ec Ep]. apply streq_spec in Ec, Ep.
      apply (H u); [now left|auto].
    + rewrite IH. split; intros H v.
      * intros [<-|Hv]; [|now apply H]. intros [Ec Ep].
        apply streq_spec in Ec, Ep. rewrite Ec, Ep in E. discriminate.
      * intros Hv. apply H. now right.
Qed.

Lemma buscarUsuario_Some (us : list Usuario) (req : LoginRequest)
  (u : Usuario) :
  buscarUsuario us req = Some u ->
  In u us /\ Correo u = lCorreo req /\ Password u = lPassword req.
Proof.
  induction us as [|v us IH]; cbn [buscarUsuario]; [discriminate|].
  destruct (streq (Correo v) (lCorreo req)
            && streq (Password v) (lPassword req)) eqn:E.
  - intros H. injection H as <-. apply andb_prop in E as [Ec Ep].
    apply streq_spec in Ec, Ep. repeat split; auto. now left.
  - intros H. destruct (IH H) as (Hin & Hc & Hp). repeat split; auto.
    now right.
Qed.

(** C8: a login with both fields present that no stored user matches in
    email and password is answered 401 with one fixed message, the registry
    untouched.  The answer is this same value when the email is unknown and
    when the email is known and the password differs. *)
Theorem login_credenciales_invalidas (m : Mundo) (req : LoginRequest) :
  lCorreo req <> [] -> lPassword req <> [] ->
  (forall u, In u (usuarios m) ->
     ~ (Correo u = lCorreo req /\ Password u = lPassword req)) ->
  loginHandler (Some req) m
  = (credencialesInvalidas, imprimir (go "Usuario no encontrado.") m).
Proof.
  intros Hc Hp Hn. unfold loginHandler.
  apply streq_false in Hc, Hp. rewrite Hc, Hp.
  apply buscarUsuario_None in Hn. now rewrite Hn.
Qed.

(** Two failures: an email nobody registered, and the email of [ana] with
    another password. *)
Lemma login_credenciales_invalidas_witness :
  fst (loginHandler (Some (mkLoginRequest (go "x@y.com") (go "Pass123@")))
                    mundoAna)
  = credencialesInvalidas
  /\ fst (loginHandler (Some (mkLoginRequest (go "a@b.com") (go "wrong1@")))
                       mundoAna)
     = credencialesInvalidas.
Proof.
  split.
  - rewrite (login_credenciales_invalidas mundoAna
               (mkLoginRequest (go "x@y.com") (go "Pass123@"))).
    + reflexivity.
    + discriminate.
    + discriminate.
    + intros u [<-|[]] [Hc _]. discriminate Hc.
  - rewrite (login_credenciales_invalidas mundoAna
               (mkLoginRequest (go "a@b.com") (go "wrong1@"))).
    + reflexivity.
    + discriminate.
    + discriminate.
    + intros u [<-|[]] [_ Hp]. discriminate Hp.
Defined.

(** *** The token *)

Lemma Unix_Add_dia (t : Time) : Unix (Add t (Hour * 24)) = Unix t + 86400.
Proof.
  unfold Unix, Add, Hour, Second.
  replace (t + 3600 * 1000000000 * 24) with (t + 86400 * 1000000000) by lia.
  now rewrite Z.div_add by lia.
Qed.

(** C7, as the code has it: a successful login answers with a token signed
    with HS256 under [jwtKey] whose claims are exactly the email of the
    matched user and an expiry, and with a timestamp.  The expiry is the
    Unix time, in whole seconds, of the first clock reading plus 24 hours;
    the timestamp is a second, later clock reading.  So the expiry is at
    most the Unix time of the timestamp plus 24 hours when the clock does
    not run backwards, and equal to it when both readings fall in the same
    second. *)
Theorem login_token (m : Mundo) (req : LoginRequest) (resp : Respuesta)
  (m' : Mundo) :
  loginHandler (Some req) m = (resp, m') ->
  codigo resp = StatusOK ->
  let t1 := reloj m (lecturas m) in
  let t2 := reloj m (S (lecturas m)) in
  (exists usuario, In usuario (usuarios m)
                   /\ Correo usuario = lCorreo req
                   /\ Password usuario = lPassword req)
  /\ cuerpo resp
     = CuerpoLogin
         (mkLoginResponse
            (Jwt.Firmado Jwt.SigningMethodHS256
                         (claimsDe (lCorreo req) (Unix (Add t1 (Hour * 24))))
                         jwtKey)
            t2)
  /\ (t1 <= t2 -> Unix (Add t1 (Hour * 24)) <= Unix (Add t2 (Hour * 24)))
  /\ (Unix t1 = Unix t2 ->
      Unix (Add t1 (Hour * 24)) = Unix (Add t2 (Hour * 24))).
Proof.
  unfold loginHandler. intros H Hcod. cbv zeta.
  destruct (streq (lCorreo req) []);
    [injection H as <- _; discriminate Hcod|].
  destruct (streq (lPassword req) []);
    [injection H as <- _; discriminate Hcod|].
  destruct (buscarUsuario (usuarios m) req) as [u|] eqn:Eu;
    [|injection H as <- _; discriminate Hcod].
  apply buscarUsuario_Some in Eu as (Hin & Hc & Hp).
  cbn in H. injection H as <- _. cbn [cuerpo]. rewrite Hc.
  split; [exists u; auto|]. split; [reflexivity|].
  rewrite !Unix_Add_dia. unfold Unix, Second. split.
  - intros Hle. apply Z.add_le_mono_r. apply Z.div_le_mono; lia.
  - intros ->. reflexivity.
Qed.

Lemma login_cambio_de_segundo :
  loginHandler (Some loginAna) mundoCambioDeSegundo
  = (mkRespuesta StatusOK [(go "Content-Type", go "application/json")]
       (CuerpoLogin
          (mkLoginResponse
             (Jwt.Firmado Jwt.SigningMethodHS256
                          (claimsDe (go "a@b.com") 86400) jwtKey)
             1000000500)),
     mkMundo [ana] relojCambioDeSegundo 2 []).
Proof. vm_compute. reflexivity. Qed.

(** Between the two clock readings a second ends: the token expires at
    86400 s while the timestamp plus 24 hours is in second 86401. *)
Lemma expiraTrasFecha_falla : ~ expiraTrasFecha.
Proof.
  intros H. specialize (H _ _ _ _ _ _ login_cambio_de_segundo).
  vm_compute in H. discriminate H.
Qed.

Lemma login_token_witness :
  let t1 := 999999999 in
  let t2 := 1000000500 in
  (exists usuario, In usuario [ana]
                   /\ Correo usuario = go "a@b.com"
                   /\ Password usuario = go "Pass123@")
  /\ CuerpoLogin
       (mkLoginResponse
          (Jwt.Firmado Jwt.SigningMethodHS256
                       (claimsDe (go "a@b.com") 86400) jwtKey)
          1000000500)
     = CuerpoLogin
         (mkLoginResponse
            (Jwt.Firmado Jwt.SigningMethodHS256
                         (claimsDe (go "a@b.com") (Unix (Add t1 (Hour * 24))))
                         jwtKey)
            t2)
  /\ (t1 <= t2 -> Unix (Add t1 (Hour * 24)) <= Unix (Add t2 (Hour * 24)))
  /\ (Unix t1 = Unix t2 ->
      Unix (Add t1 (Hour * 24)) = Unix (Add t2 (Hour * 24))).
Proof.
  exact (login_token mundoCambioDeSegundo loginAna _ _
                     login_cambio_de_segundo eq_refl).
Defined.

(** ** Goroutines *)

(** A goroutine that runs alone does what [registroHandler] does. *)
Lemma paso_dos_veces (T : Tables) (body : option RegistroRequest)
  (m : Mundo) :
  ejecutar T [0; 0]%nat [Recibida body] m
  = ([Respondida (fst (registroHandler T body m))],
     snd (registroHandler T body m)).
Proof.
  cbn [ejecutar nth_error paso]. unfold registroHandler.
  destruct (verificar T body m) as [[resp|req] m']; cbn; reflexivity.
Qed.

(** C9 on the code: two requests with the same email, each in its goroutine.
    When the first handler finishes before the second starts, one request
    succeeds and the other gets the duplicate-email error.  When both
    handlers leave the duplicate loop before either appends, which nothing
    in the code prevents, both succeed and the registry holds the email
    twice. *)
Theorem carrera_registro (T : Tables) :
  ejecutar T [0; 0; 1; 1]%nat dosGorutinas (mundoInicial relojFijo)
  = ([Respondida registrado; Respondida duplicadoCorreo],
     mkMundo [ana] relojFijo 0 [go "Usuario registrado correctamente"])
  /\ ejecutar T [0; 1; 0; 1]%nat dosGorutinas (mundoInicial relojFijo)
     = ([Respondida registrado; Respondida registrado],
        mkMundo [ana; usuarioDe peticionAnaOtroTelefono] relojFijo 0
                [go "Usuario registrado correctamente";
                 go "Usuario registrado correctamente"])
  /\ Correo ana = Correo (usuarioDe peticionAnaOtroTelefono)
  /\ ~ sinDuplicados [ana; usuarioDe peticionAnaOtroTelefono].
Proof.
  split; [vm_compute; reflexivity|].
  split; [vm_compute; reflexivity|].
  split; [reflexivity|].
  intros [H _]. inversion H as [|x l Hin _]; subst. apply Hin. now left.
Qed.

(** * Further properties *)

(** ** package strings, general patterns *)

Lemma HasPrefix_spec (s p : gostring) :
  HasPrefix s p = true <-> exists y, s = p ++ y.
Proof.
  revert p. induction s as [|a s IH]; intros [|b p]; cbn.
  - split; [exists []; reflexivity|reflexivity].
  - split; [discriminate|]. intros [y Hy]. discriminate Hy.
  - split; [exists (a :: s); reflexivity|reflexivity].
  - unfold byte_eqb. destruct (Ascii.eqb_spec a b) as [->|Hab]; cbn.
    + rewrite IH. split; intros [y Hy]; exists y; congruence.
    + split; [discriminate|]. intros [y Hy]. congruence.
Qed.

Lemma Index_cota (s p : gostring) : -1 <= Index s p.
Proof.
  induction s as [|a s IH]; cbn [Index].
  - destruct (HasPrefix [] p); lia.
  - destruct (HasPrefix (a :: s) p); [lia|].
    destruct (Z.ltb_spec (Index s p) 0); lia.
Qed.

(** [Index] finds the pattern exactly when it occurs. *)
Lemma Index_ocurre (s p : gostring) :
  0 <= Index s p <-> exists x y, s = x ++ p ++ y.
Proof.
  induction s as [|a s IH]; cbn [Index].
  - destruct (HasPrefix [] p) eqn:E.
    + apply HasPrefix_spec in E as [y Hy]. split; [|lia].
      intros _. exists [], y. exact Hy.
    + split; [lia|]. intros (x & y & H). exfalso.
      destruct x; [|discriminate H]. cbn in H.
      assert (HasPrefix [] p = true) by (apply HasPrefix_spec; eauto).
      congruence.
  - destruct (HasPrefix (a :: s) p) eqn:E.
    + apply HasPrefix_spec in E as [y Hy]. split; [|lia].
      intros _. exists [], y. exact Hy.
    + pose proof (Index_cota s p) as Hc.
      destruct (Z.ltb_spec (Index s p) 0) as [Hi|Hi].
      * split; [lia|]. intros (x & y & H). exfalso.
        destruct x as [|b x].
        -- assert (HasPrefix (a :: s) p = true)
             by (apply HasPrefix_spec; eauto).
           congruence.
        -- injection H as _ H.
           assert (0 <= Index s p) by (apply IH; eauto). lia.
      * split; [|lia]. intros _. apply IH in Hi as (x & y & ->).
        exists (a :: x), y. reflexivity.
Qed.

Lemma Contains_puntos (s : gostring) :
  Contains s (go "..") = false <-> ~ puntosSeguidos s.
Proof.
  unfold Contains, puntosSeguidos. change (go "..") with [punto; punto].
  rewrite Z.leb_gt. pose proof (Index_ocurre s [punto; punto]) as H.
  cbn [app] in H. split.
  - intros Hi Hx. apply H in Hx. lia.
  - intros Hn. destruct (Z.ltb_spec (Index s [punto; punto]) 0); [assumption|].
    exfalso. apply Hn, H. assumption.
Qed.

Lemma HasPrefix_primerByte (s : gostring) (c : ascii) :
  HasPrefix s [c] = true <-> primerByte s = Some c.
Proof.
  rewrite HasPrefix_byte. unfold primerByte, byte_eqb.
  destruct s as [|a t]; cbn; [split; discriminate|].
  destruct (Ascii.eqb_spec a c); split; congruence.
Qed.

Lemma HasSuffix_ultimoByte (s : gostring) (c : ascii) :
  HasSuffix s [c] = true <-> ultimoByte s = Some c.
Proof.
  unfold HasSuffix, ultimoByte.
  destruct (list_eq_dec ascii_dec s []) as [->|Hs].
  - cbn. split; discriminate.
  - destruct (exists_last Hs) as (l & a & ->).
    rewrite rev_app_distr. cbn [rev app hd_error].
    replace (len (l ++ [a]) - len [c]) with (len l)
      by (rewrite len_app; cbn; lia).
    rewrite desde_app. pose proof (len_nonneg l).
    replace (len [c] <=? len (l ++ [a])) with true
      by (symmetry; apply Z.leb_le; rewrite len_app; cbn; lia).
    cbn [andb]. rewrite streq_spec. split; congruence.
Qed.

(** The first occurrence of a byte is where a split without it on the left
    says. *)
Lemma primera_ocurrencia (c : ascii) (l d l' d' : gostring) :
  l ++ c :: d = l' ++ c :: d' -> ~ In c l -> ~ In c l' -> l = l' /\ d = d'.
Proof.
  revert l'. induction l as [|a l IH]; intros [|a' l'] E Hl Hl'; cbn in E.
  - injection E as ->. auto.
  - injection E as <- _. exfalso. apply Hl'. now left.
  - injection E as -> _. exfalso. apply Hl. now left.
  - injection E as <- E. destruct (IH l' E) as [-> ->]; auto.
    + intros H. apply Hl. now right.
    + intros H. apply Hl'. now right.
Qed.

Lemma ultima_ocurrencia (c : ascii) (l d l' d' : gostring) :
  l ++ c :: d = l' ++ c :: d' -> ~ In c d -> ~ In c d' -> l = l' /\ d = d'.
Proof.
  intros E Hd Hd'. apply (f_equal (@rev ascii)) in E.
  rewrite !rev_app_distr in E. cbn [rev] in E. rewrite <- !app_assoc in E.
  cbn [app] in E. apply primera_ocurrencia in E.
  - destruct E as [E1 E2]. apply (f_equal (@rev ascii)) in E1, E2.
    rewrite !rev_involutive in E1, E2. auto.
  - now rewrite <- in_rev.
  - now rewrite <- in_rev.
Qed.

Lemma Split_dos_inv (c : ascii) (l d : gostring) :
  ~ In c l -> ~ In c d -> Split (l ++ c :: d) [c] = [l; d].
Proof.
  intros Hl Hd. unfold Split. rewrite length_app. cbn [List.length].
  rewrite Nat.add_succ_r. cbn [genSplit].
  destruct (Index_byte c (l ++ c :: d)) as [[_ Hn]|(l' & d' & E & Hl' & Hi)].
  - exfalso. apply Hn. apply in_or_app. right. now left.
  - apply primera_ocurrencia in E as [<- <-]; auto. rewrite Hi.
    pose proof (len_nonneg l) as Hlen.
    destruct (Z.ltb_spec (len l) 0) as [?|_]; [lia|].
    change (len [c]) with 1. rewrite hasta_app, desde_app_cons. f_equal.
    destruct (Index_byte c d) as [[Hid _]|(x & y & -> & _)].
    + destruct (List.length l + List.length d)%nat; cbn [genSplit];
        [reflexivity|]. now rewrite Hid.
    + exfalso. apply Hd. apply in_or_app. right. now left.
Qed.

Lemma LastIndex_ultimo (c : ascii) (l d : gostring) :
  ~ In c d -> LastIndex (l ++ c :: d) [c] = len l.
Proof.
  intros Hd.
  destruct (LastIndex_byte c (l ++ c :: d)) as [[_ Hn]|(l' & d' & E & Hd' & Hi)].
  - exfalso. apply Hn. apply in_or_app. right. now left.
  - apply ultima_ocurrencia in E as [<- <-]; auto.
Qed.

(** ** validarCorreo, all of its checks *)

Lemma code_inyectiva (a b : ascii) : code a = code b -> a = b.
Proof.
  unfold code. intros H. apply N2Z.inj in H.
  rewrite <- (ascii_N_embedding a), <- (ascii_N_embedding b). now rewrite H.
Qed.

Lemma caracterValido_byteCorreo (a : ascii) :
  caracterValido (code a) = true <-> byteCorreo a.
Proof.
  unfold caracterValido, byteCorreo, entre. boolZ.
  assert (forall b, code a = code b <-> a = b) as H
      by (intros b; split; [apply code_inyectiva|congruence]).
  rewrite <- (H punto), <- (H guion), <- (H guionBajo), <- (H arroba).
  change (code punto) with 0x2E. change (code guion) with 0x2D.
  change (code guionBajo) with 0x5F. change (code arroba) with 0x40. tauto.
Qed.

(** The character check runs over runes; it passes exactly when every byte
    is one of the allowed ASCII characters. *)
Lemma caracteresValidos_bytes (t : gostring) :
  caracteresValidos t = true <-> Forall byteCorreo t.
Proof.
  unfold caracteresValidos. rewrite forallb_runes.
  - rewrite forallb_forall, Forall_forall.
    split; intros H a Ha; apply caracterValido_byteCorreo; auto.
  - intros c Hc. unfold caracterValido, entre, RuneSelf in *. boolZ. lia.
Qed.

Lemma validarCorreo_controles (s : gostring) :
  validarCorreo s = true <->
  exists parteLocal dominio,
    Split (TrimSpace s) [arroba] = [parteLocal; dominio]
    /\ controlesCorreo (TrimSpace s) parteLocal dominio = true.
Proof.
  unfold validarCorreo, controlesCorreo.
  change (go "@") with [arroba]. change (go ".") with [punto].
  change (go "..") with [punto; punto]. change (go "-") with [guion].
  destruct (streq (TrimSpace s) []) eqn:Et.
  { apply streq_spec in Et. rewrite Et. split; [discriminate|].
    intros (l & d & H & _). discriminate H. }
  destruct (Split (TrimSpace s) [arroba]) as [|l [|d [|x r]]];
    try (split; [discriminate|]; intros (l' & d' & H & _); discriminate H).
  assert ((if (len l =? 0) || (64 <? len l) then false
           else if HasPrefix l [punto] || HasSuffix l [punto] then false
           else if Contains l [punto; punto] then false
           else if (len d =? 0) || (255 <? len d) then false
           else if negb (Contains d [punto]) then false
           else if HasPrefix d [punto] || HasSuffix d [punto]
                   || HasPrefix d [guion] || HasSuffix d [guion] then false
           else if len (desde (LastIndex d [punto] + 1) d) <? 2 then false
           else caracteresValidos (TrimSpace s))
          = controlesCorreo (TrimSpace s) l d) as ->.
  { unfold controlesCorreo.
    destruct ((len l =? 0) || (64 <? len l)); [reflexivity|].
    destruct (HasPrefix l [punto] || HasSuffix l [punto]); [reflexivity|].
    destruct (Contains l [punto; punto]); [reflexivity|].
    destruct ((len d =? 0) || (255 <? len d)); [reflexivity|].
    destruct (Contains d [punto]); [|reflexivity].
    destruct (HasPrefix d [punto] || HasSuffix d [punto]
              || HasPrefix d [guion] || HasSuffix d [guion]); [reflexivity|].
    destruct (len (desde (LastIndex d [punto] + 1) d) <? 2); reflexivity. }
  unfold controlesCorreo. split.
  - intros H. exists l, d. auto.
  - intros (l' & d' & E & H). now injection E as <- <-.
Qed.

Lemma falso_sii (b : bool) (P : Prop) :
  (b = true <-> P) -> (b = false <-> ~ P).
Proof. destruct b; intros [H1 H2]; split; intros H; auto; try congruence.
  - exfalso. apply H. now apply H1.
  - intros HP. apply H2 in HP. discriminate HP.
Qed.

Lemma controlesCorreo_spec (t l d : gostring) :
  controlesCorreo t l d = true <->
  1 <= len l <= 64
  /\ primerByte l <> Some punto /\ ultimoByte l <> Some punto
  /\ ~ puntosSeguidos l
  /\ 1 <= len d <= 255
  /\ In punto d
  /\ primerByte d <> Some punto /\ primerByte d <> Some guion
  /\ ultimoByte d <> Some punto /\ ultimoByte d <> Some guion
  /\ 2 <= len (desde (LastIndex d [punto] + 1) d)
  /\ Forall byteCorreo t.
Proof.
  unfold controlesCorreo.
  rewrite !andb_true_iff, !negb_true_iff, !orb_false_iff.
  rewrite (falso_sii _ _ (HasPrefix_primerByte l punto)).
  rewrite (falso_sii _ _ (HasSuffix_ultimoByte l punto)).
  rewrite (falso_sii _ _ (HasPrefix_primerByte d punto)).
  rewrite (falso_sii _ _ (HasSuffix_ultimoByte d punto)).
  rewrite (falso_sii _ _ (HasPrefix_primerByte d guion)).
  rewrite (falso_sii _ _ (HasSuffix_ultimoByte d guion)).
  change [punto; punto] with (go "..").
  rewrite Contains_puntos, Contains_byte, caracteresValidos_bytes.
  rewrite !Z.eqb_neq, !Z.ltb_ge.
  pose proof (len_nonneg l). pose proof (len_nonneg d).
  intuition lia.
Qed.

(** X1: the email validator accepts [s] exactly when [s] without its leading
    and trailing white space is a local part of 1 to 64 bytes, one [@], and
    a domain of 1 to 255 bytes, where the local part neither starts nor
    ends with a dot nor has two dots in a row, the domain neither starts nor
    ends with a dot or a hyphen and has at least 2 bytes after its last dot,
    and every byte is one of [a-z], [A-Z], [0-9], [.], [-], [_], [@]. *)
Theorem validarCorreo_sii (s : gostring) :
  validarCorreo s = true <-> formaCorreo (TrimSpace s).
Proof.
  rewrite validarCorreo_controles. unfold formaCorreo. split.
  - intros (l & d & Hsplit & Hc). apply Split_dos in Hsplit as (Et & Hl & Hd).
    apply controlesCorreo_spec in Hc
      as (H1 & H2 & H3 & H4 & H5 & H6 & H7 & H8 & H9 & H10 & H11 & H12).
    exists l, d. repeat (split; [assumption|]). split; [|assumption].
    destruct (LastIndex_byte punto d) as [[_ Hn]|(d0 & e & E & He & Hi)];
      [contradiction|].
    exists d0, e. rewrite Hi, E, desde_app_cons in H11. auto.
  - intros (l & d & Et & Hl & Hd & H1 & H2 & H3 & H4 & H5 & H7 & H8 & H9
            & H10 & (d0 & e & E & He & Hext) & H12).
    exists l, d. split.
    + rewrite Et. now apply Split_dos_inv.
    + apply controlesCorreo_spec.
      assert (In punto d) by (rewrite E; apply in_or_app; right; now left).
      assert (2 <= len (desde (LastIndex d [punto] + 1) d))
        by (rewrite E, LastIndex_ultimo, desde_app_cons; assumption).
      tauto.
Qed.

(** X2: an address the email validator accepts is, once trimmed, between 6
    and 320 bytes long: at least one byte, the [@], and a domain with a
    label, a dot and two more bytes; at most 64 bytes, the [@] and 255
    bytes. *)
Theorem validarCorreo_longitud (s : gostring) :
  validarCorreo s = true -> 6 <= len (TrimSpace s) <= 320.
Proof.
  intros H. apply validarCorreo_controles in H as (l & d & Hsplit & Hc).
  apply Split_dos in Hsplit as (-> & _ & _).
  apply controlesCorreo_spec in Hc
    as (Hl & _ & _ & _ & Hd & Hin & Hp & _ & _ & _ & Hext & _).
  rewrite len_app. change (arroba :: d) with ([arroba] ++ d).
  rewrite len_app. change (len [arroba]) with 1.
  destruct (LastIndex_byte punto d) as [[_ Hn]|(d0 & e & E & He & Hi)];
    [contradiction|].
  rewrite Hi, E, desde_app_cons in Hext.
  assert (1 <= len d0).
  { destruct d0 as [|a d0]; [|unfold len; cbn [List.length]; lia].
    exfalso. apply Hp. rewrite E. reflexivity. }
  assert (len d = len d0 + 1 + len e) as Hlen.
  { rewrite E, len_app. change (punto :: e) with ([punto] ++ e).
    rewrite len_app. change (len [punto]) with 1. lia. }
  lia.
Qed.

Lemma validarCorreo_longitud_witness :
  validarCorreo (go "a@b.co") = true
  /\ len (TrimSpace (go "a@b.co")) = 6
  /\ 6 <= len (TrimSpace (go "a@b.co")) <= 320.
Proof.
  split; [vm_compute; reflexivity|]. split; [vm_compute; reflexivity|].
  apply (validarCorreo_longitud (go "a@b.co")). vm_compute. reflexivity.
Defined.

(** ** validarPassword, characters and bytes *)

Lemma runesAux_length (f : nat) (s : gostring) :
  (List.length (runesAux f s) <= List.length s)%nat.
Proof.
  revert s. induction f as [|f IH]; intros s; cbn [runesAux];
    [cbn; lia|].
  destruct s as [|a t]; [cbn; lia|].
  pose proof (desde_ancho a t) as Hw.
  destruct (DecodeRune (a :: t)) as [r w]. cbn [snd] in Hw.
  cbn [List.length]. specialize (IH (desde w (a :: t))). lia.
Qed.

(** A string has at most as many characters as bytes. *)
Lemma runes_length (s : gostring) :
  (List.length (runes s) <= List.length s)%nat.
Proof. apply runesAux_length. Qed.

(** One turn of the switch sets at most one flag. *)
Lemma cuenta_clasificar (T : Tables) (b : Banderas) (c : rune) :
  (cuenta (clasificar T b c) <= cuenta b + 1)%nat.
Proof.
  unfold clasificar, cuenta.
  destruct (IsUpper T c), (IsLower T c), (IsDigit T c),
    (ContainsRune especiales c), b as [[] [] [] []]; cbn; lia.
Qed.

Lemma cuenta_fold (T : Tables) (l : list rune) (b : Banderas) :
  (cuenta (fold_left (clasificar T) l b) <= cuenta b + List.length l)%nat.
Proof.
  revert b. induction l as [|c l IH]; intros b; cbn [fold_left List.length];
    [lia|].
  specialize (IH (clasificar T b c)).
  pose proof (cuenta_clasificar T b c). lia.
Qed.

(** X3: a password the validator accepts has between 4 and 12 characters,
    in 6 to 12 bytes: each character sets at most one of the four flags,
    and a character takes at least one byte.  This holds whatever the tables
    of package unicode. *)
Theorem validarPassword_caracteres (T : Tables) (s : gostring) :
  validarPassword T s = true ->
  4 <= Z.of_nat (List.length (runes s)) <= 12 /\ 6 <= len s <= 12.
Proof.
  unfold validarPassword. intros H.
  destruct (Z.ltb_spec (len s) 6) as [?|H6]; [discriminate H|].
  destruct (Z.ltb_spec 12 (len s)) as [?|H12]; [discriminate H|].
  cbn [orb] in H.
  pose proof (cuenta_fold T (runes s) (mkBanderas false false false false))
    as Hc.
  pose proof (runes_length s) as Hr. unfold len in *.
  destruct (fold_left (clasificar T) (runes s)
                      (mkBanderas false false false false))
    as [[] [] [] []]; try discriminate H.
  cbn in Hc. lia.
Qed.

Lemma validarPassword_caracteres_witness :
  validarPassword tablasMuestra (go "Ññ1@") = true
  /\ Z.of_nat (List.length (runes (go "Ññ1@"))) = 4
  /\ len (go "Ññ1@") = 6
  /\ 4 <= Z.of_nat (List.length (runes (go "Ññ1@"))) <= 12
  /\ 6 <= len (go "Ññ1@") <= 12.
Proof.
  split; [vm_compute; reflexivity|]. split; [vm_compute; reflexivity|].
  split; [vm_compute; reflexivity|].
  apply (validarPassword_caracteres tablasMuestra (go "Ññ1@")).
  vm_compute. reflexivity.
Defined.

Lemma existsb_igual_en (P Q : rune -> bool) (l : list rune) :
  (forall c, In c l -> P c = Q c) -> existsb P l = existsb Q l.
Proof.
  intros H. induction l as [|c l IH]; cbn; [reflexivity|].
  rewrite (H c) by now left. rewrite IH; [reflexivity|].
  intros d Hd. apply H. now right.
Qed.

(** On ASCII the classes of package unicode are the usual ranges, whatever
    the tables. *)
Lemma clases_ascii (T : Tables) (c : rune) :
  0 <= c < RuneSelf ->
  IsUpper T c = entre 0x41 0x5A c
  /\ IsLower T c = entre 0x61 0x7A c
  /\ IsDigit T c = entre 0x30 0x39 c.
Proof.
  unfold RuneSelf. intros Hc.
  unfold IsUpper, IsLower, IsDigit, uint32, MaxLatin1.
  rewrite Z.mod_small by lia.
  destruct (Z.leb_spec c 255) as [_|?]; [|lia].
  unfold latin1Lu, latin1Ll, entre.
  repeat split; apply eq_true_iff_eq; boolZ; lia.
Qed.

Lemma existsb_bytes (P : rune -> bool) (s : gostring) :
  existsb P (map code s) = true <-> exists a, In a s /\ P (code a) = true.
Proof.
  rewrite existsb_exists. split.
  - intros (c & Hc & HP). apply in_map_iff in Hc as (a & <- & Ha). eauto.
  - intros (a & Ha & HP). exists (code a). split; [|exact HP].
    now apply in_map.
Qed.

(** X4: on an ASCII string the password validator accepts exactly when the
    string has 6 to 12 characters, among them one of [A-Z], one of [a-z],
    one of [0-9] and one of [@], [$], [&]; the tables of package unicode
    play no part. *)
Theorem validarPassword_ascii (T : Tables) (s : gostring) :
  Forall (fun a => code a < RuneSelf) s ->
  (validarPassword T s = true <->
   6 <= len s <= 12
   /\ (exists a, In a s /\ entre 0x41 0x5A (code a) = true)
   /\ (exists a, In a s /\ entre 0x61 0x7A (code a) = true)
   /\ (exists a, In a s /\ entre 0x30 0x39 (code a) = true)
   /\ (exists a, In a s /\ esEspecial (code a) = true)).
Proof.
  intros Hs. unfold validarPassword. rewrite (runes_ascii s Hs).
  destruct (fold_clasificar T (map code s) (mkBanderas false false false false))
    as (H1 & H2 & H3 & H4). cbv zeta in H1, H2, H3, H4.
  cbn [tieneMayus tieneMinus tieneNumero tieneEspecial orb] in H1, H2, H3, H4.
  assert (forall c, In c (map code s) -> 0 <= c < RuneSelf) as Hr.
  { intros c Hc. apply in_map_iff in Hc as (a & <- & Ha).
    rewrite Forall_forall in Hs. pose proof (code_range a).
    specialize (Hs a Ha). cbv beta in Hs. lia. }
  rewrite (existsb_igual_en _ (entre 0x41 0x5A)) in H1.
  2:{ intros c Hc. now destruct (clases_ascii T c (Hr c Hc)) as (-> & _). }
  rewrite (existsb_igual_en _ (entre 0x61 0x7A)) in H2.
  2:{ intros c Hc. destruct (clases_ascii T c (Hr c Hc)) as (-> & -> & _).
      unfold entre. apply eq_true_iff_eq. boolZ. lia. }
  rewrite (existsb_igual_en _ (entre 0x30 0x39)) in H3.
  2:{ intros c Hc. destruct (clases_ascii T c (Hr c Hc)) as (-> & -> & ->).
      unfold entre. apply eq_true_iff_eq. boolZ. lia. }
  rewrite (existsb_igual_en _ esEspecial) in H4.
  2:{ intros c Hc. destruct (clases_ascii T c (Hr c Hc)) as (-> & -> & ->).
      unfold entre, esEspecial. apply eq_true_iff_eq. boolZ. lia. }
  rewrite <- !existsb_bytes.
  destruct (Z.ltb_spec (len s) 6) as [?|?]; cbn [orb];
    [split; [discriminate|lia]|].
  destruct (Z.ltb_spec 12 (len s)) as [?|?];
    [split; [discriminate|lia]|].
  rewrite H1, H2, H3, H4, !andb_true_iff. intuition lia.
Qed.

Lemma validarPassword_ascii_witness :
  validarPassword tablasMuestra (go "Pass123@") = true <->
  6 <= len (go "Pass123@") <= 12
  /\ (exists a, In a (go "Pass123@") /\ entre 0x41 0x5A (code a) = true)
  /\ (exists a, In a (go "Pass123@") /\ entre 0x61 0x7A (code a) = true)
  /\ (exists a, In a (go "Pass123@") /\ entre 0x30 0x39 (code a) = true)
  /\ (exists a, In a (go "Pass123@") /\ esEspecial (code a) = true).
Proof.
  apply (validarPassword_ascii tablasMuestra (go "Pass123@")).
  repeat constructor.
Defined.

(** ** registroHandler, outcome by outcome *)

Lemma comparte_no_ninguno (us : list Usuario) (req : RegistroRequest) :
  comparte us req -> ~ ninguno us req.
Proof.
  intros (u & Hin & Hu) Hn. destruct (Hn u Hin) as [Hc Ht].
  destruct Hu; contradiction.
Qed.

(** The three ways [registroHandler] can end. *)
Lemma registro_tres_casos (T : Tables) (body : option RegistroRequest)
  (m : Mundo) :
  ((forall req, body = Some req -> ~ bienFormada T req)
   /\ codigo (fst (registroHandler T body m)) = StatusBadRequest)
  \/ (exists req, body = Some req /\ bienFormada T req
                  /\ comparte (usuarios m) req
                  /\ codigo (fst (registroHandler T body m)) = StatusConflict)
  \/ (exists req, body = Some req /\ bienFormada T req
                  /\ ninguno (usuarios m) req
                  /\ fst (registroHandler T body m) = registrado).
Proof.
  destruct body as [req|]; [|left; split; [discriminate|reflexivity]].
  unfold registroHandler, verificar.
  destruct (streq (rCorreo req) []) eqn:E1.
  { left. split; [|reflexivity]. intros r Hr (H & _). injection Hr as <-.
    apply streq_spec in E1. contradiction. }
  destruct (streq (rTelefono req) []) eqn:E2.
  { left. split; [|reflexivity]. intros r Hr (_ & H & _). injection Hr as <-.
    apply streq_spec in E2. contradiction. }
  destruct (streq (rPassword req) []) eqn:E3.
  { left. split; [|reflexivity]. intros r Hr (_ & _ & H & _).
    injection Hr as <-. apply streq_spec in E3. contradiction. }
  destruct (validarCorreo (rCorreo req)) eqn:E4; cbn [negb].
  2:{ left. split; [|reflexivity]. intros r Hr (_ & _ & _ & H & _).
      injection Hr as <-. congruence. }
  destruct (validarTelefono (rTelefono req)) eqn:E5; cbn [negb].
  2:{ left. split; [|reflexivity]. intros r Hr (_ & _ & _ & _ & H & _).
      injection Hr as <-. congruence. }
  destruct (validarPassword T (rPassword req)) eqn:E6; cbn [negb].
  2:{ left. split; [|reflexivity]. intros r Hr (_ & _ & _ & _ & _ & H).
      injection Hr as <-. congruence. }
  assert (bienFormada T req) as Hbf.
  { apply streq_false in E1, E2, E3. repeat split; assumption. }
  right.
  destruct (revisarDuplicados_casos (usuarios m) req)
    as [[-> Hn]|(l & u & r & E & _ & [[Hu ->]|(_ & Hu & ->)])].
  - right. exists req. auto.
  - left. exists req. split; [reflexivity|]. split; [exact Hbf|].
    split; [|reflexivity]. exists u. split; [|now left].
    rewrite E. apply in_or_app. right. now left.
  - left. exists req. split; [reflexivity|]. split; [exact Hbf|].
    split; [|reflexivity]. exists u. split; [|now right].
    rewrite E. apply in_or_app. right. now left.
Qed.

(** X5: what decides the status of a registration.  It is 201 exactly when
    the request passes every presence and format check and no stored user
    has its email or its phone; 409 exactly when it passes every check and
    some stored user has its email or its phone; 400 exactly when the body
    did not decode or a check fails.  So the registry is consulted only for
    requests that are well formed. *)
Theorem registro_codigos (T : Tables) (body : option RegistroRequest)
  (m : Mundo) :
  (fst (registroHandler T body m) = registrado <->
   exists req, body = Some req /\ bienFormada T req
               /\ ninguno (usuarios m) req)
  /\ (codigo (fst (registroHandler T body m)) = StatusConflict <->
      exists req, body = Some req /\ bienFormada T req
                  /\ comparte (usuarios m) req)
  /\ (codigo (fst (registroHandler T body m)) = StatusBadRequest <->
      forall req, body = Some req -> ~ bienFormada T req).
Proof.
  destruct (registro_tres_casos T body m)
    as [[Hmal Hc]|[(req & -> & Hbf & Hs & Hc)|(req & -> & Hbf & Hn & Hc)]].
  - split; [|split].
    + split.
      * intros H. rewrite H in Hc. discriminate Hc.
      * intros (req & Hb & Hbf & _). exfalso. eapply Hmal; eauto.
    + split.
      * intros H. rewrite H in Hc. discriminate Hc.
      * intros (req & Hb & Hbf & _). exfalso. eapply Hmal; eauto.
    + tauto.
  - split; [|split].
    + split.
      * intros H. rewrite H in Hc. discriminate Hc.
      * intros (r & Hr & _ & Hn). injection Hr as <-. exfalso.
        eapply comparte_no_ninguno; eauto.
    + split; [|tauto]. intros _. exists req. auto.
    + split.
      * intros H. rewrite H in Hc. discriminate Hc.
      * intros H. exfalso. exact (H req eq_refl Hbf).
  - split; [|split].
    + split; [|tauto]. intros _. exists req. auto.
    + split.
      * intros H. rewrite Hc in H. discriminate H.
      * intros (r & Hr & _ & Hs). injection Hr as <-. exfalso.
        eapply comparte_no_ninguno; eauto.
    + split.
      * intros H. rewrite Hc in H. discriminate H.
      * intros H. exfalso. exact (H req eq_refl Hbf).
Qed.

(** ** Registering again *)

Lemma streq_refl' (s : gostring) : streq s s = true.
Proof. now apply streq_spec. Qed.

(** What a 201 tells about the request and the registry. *)
Lemma registro_exito_inv (T : Tables) (req : RegistroRequest) (m : Mundo) :
  fst (registroHandler T (Some req) m) = registrado ->
  bienFormada T req /\ ninguno (usuarios m) req
  /\ snd (registroHandler T (Some req) m)
     = imprimir (go "Usuario registrado correctamente")
                (agregar (usuarioDe req) m).
Proof.
  unfold registroHandler.
  destruct (verificar T (Some req) m) as [[resp|r] m'] eqn:E; cbn [fst snd].
  - intros ->. apply verificar_inl in E. destruct E as [E|E]; discriminate E.
  - intros _. apply verificar_inr in E as (Hr & -> & Hbf & Hnone).
    injection Hr as <-. split; [exact Hbf|]. split; [|reflexivity].
    destruct (revisarDuplicados_casos (usuarios m) req)
      as [[_ Hn]|(l & u & t & _ & _ & [[_ Hs]|(_ & _ & Hs)])];
      [exact Hn|congruence|congruence].
Qed.

(** The loop passes over users that share nothing with the request. *)
Lemma revisarDuplicados_app (us resto : list Usuario)
  (req : RegistroRequest) :
  ninguno us req ->
  revisarDuplicados (us ++ resto) req = revisarDuplicados resto req.
Proof.
  induction us as [|u us IH]; intros Hn; [reflexivity|].
  cbn [app revisarDuplicados].
  destruct (Hn u (or_introl eq_refl)) as [Hc Ht].
  apply streq_false in Hc, Ht. rewrite Hc, Ht. apply IH.
  intros v Hv. apply Hn. now right.
Qed.

(** X6: once a registration has succeeded, a well-formed request with the
    same email is refused and stores nothing.  It gets the duplicate-email
    error when its phone is not the phone of a user stored before; so
    the same request sent again gets that error.  A well-formed request
    with the same phone and an email that is not stored gets the
    duplicate-phone error. *)
Theorem registro_repetido (T : Tables) (req : RegistroRequest) (m : Mundo) :
  fst (registroHandler T (Some req) m) = registrado ->
  let m1 := snd (registroHandler T (Some req) m) in
  registroHandler T (Some req) m1 = (duplicadoCorreo, m1)
  /\ (forall req',
        bienFormada T req' -> rCorreo req' = rCorreo req ->
        (forall u, In u (usuarios m) -> Telefono u <> rTelefono req') ->
        registroHandler T (Some req') m1 = (duplicadoCorreo, m1))
  /\ (forall req',
        bienFormada T req' -> rTelefono req' = rTelefono req ->
        (forall u, In u (usuarios m1) -> Correo u <> rCorreo req') ->
        registroHandler T (Some req') m1 = (duplicadoTelefono, m1)).
Proof.
  intros Hok. cbv zeta.
  destruct (registro_exito_inv T req m Hok) as (Hbf & Hn & ->).
  set (m1 := imprimir _ _).
  assert (usuarios m1 = usuarios m ++ [usuarioDe req]) as Hu by reflexivity.
  assert (forall req',
            bienFormada T req' -> rCorreo req' = rCorreo req ->
            (forall u, In u (usuarios m) -> Telefono u <> rTelefono req') ->
            registroHandler T (Some req') m1 = (duplicadoCorreo, m1)) as Hmismo.
  { intros req' Hbf' Hc Ht. unfold registroHandler.
    rewrite (verificar_bienFormada T req' m1 Hbf'), Hu.
    rewrite revisarDuplicados_app.
    - cbn [revisarDuplicados usuarioDe Correo]. rewrite Hc, streq_refl'.
      reflexivity.
    - intros v Hv. split; [|now apply Ht]. rewrite Hc. now apply Hn. }
  split; [|split; [exact Hmismo|]].
  - apply Hmismo; [exact Hbf|reflexivity|]. intros u Hin. now apply Hn.
  - intros req' Hbf' Ht Hc. unfold registroHandler.
    rewrite (verificar_bienFormada T req' m1 Hbf'), Hu.
    rewrite revisarDuplicados_app.
    + cbn [revisarDuplicados usuarioDe Correo Telefono].
      assert (rCorreo req <> rCorreo req') as Hne.
      { apply (Hc (usuarioDe req)). rewrite Hu. apply in_or_app.
        right. now left. }
      apply streq_false in Hne. rewrite Hne, Ht, streq_refl'. reflexivity.
    + intros v Hv. split.
      * apply Hc. rewrite Hu. apply in_or_app. now left.
      * rewrite Ht. now apply Hn.
Qed.

Lemma registro_repetido_witness :
  let m1 := snd (registroHandler tablasMuestra (Some peticionCarlos) mundoAna) in
  registroHandler tablasMuestra (Some peticionCarlos) m1 = (duplicadoCorreo, m1)
  /\ (forall req',
        bienFormada tablasMuestra req' ->
        rCorreo req' = rCorreo peticionCarlos ->
        (forall u, In u (usuarios mundoAna) -> Telefono u <> rTelefono req') ->
        registroHandler tablasMuestra (Some req') m1 = (duplicadoCorreo, m1))
  /\ (forall req',
        bienFormada tablasMuestra req' ->
        rTelefono req' = rTelefono peticionCarlos ->
        (forall u, In u (usuarios m1) -> Correo u <> rCorreo req') ->
        registroHandler tablasMuestra (Some req') m1 = (duplicadoTelefono, m1)).
Proof.
  apply (registro_repetido tablasMuestra peticionCarlos mundoAna).
  vm_compute. reflexivity.
Defined.

(** ** The registry over time *)

(** What [registroHandler] answers and what it leaves in [usuarios]. *)
Lemma registro_resultado (T : Tables) (body : option RegistroRequest)
  (m : Mundo) :
  let '(resp, m') := registroHandler T body m in
  ((codigo resp = StatusBadRequest \/ codigo resp = StatusConflict)
   /\ usuarios m' = usuarios m)
  \/ (resp = registrado
      /\ exists req, body = Some req /\ bienFormada T req
                     /\ usuarios m' = usuarios m ++ [usuarioDe req]).
Proof.
  unfold registroHandler.
  pose proof (verificar_usuarios T body m) as Hu.
  destruct (verificar T body m) as [[resp|req] m'] eqn:E; cbn [snd] in Hu.
  - left. split; [|exact Hu]. eapply verificar_inl; eassumption.
  - right. apply verificar_inr in E as (-> & -> & Hbf & _).
    split; [reflexivity|]. exists req. auto.
Qed.

(** One request either leaves [usuarios] alone and is not answered 201, or
    is a registration answered 201 that appends the user of a well-formed
    request. *)
Lemma atender_nuevos (T : Tables) (p : Peticion) (m : Mundo) :
  (codigo (fst (atender T p m)) <> StatusCreated
   /\ usuarios (snd (atender T p m)) = usuarios m)
  \/ (exists req, p = PRegistro (Some req)
                  /\ codigo (fst (atender T p m)) = StatusCreated
                  /\ bienFormada T req
                  /\ usuarios (snd (atender T p m))
                     = usuarios m ++ [usuarioDe req]).
Proof.
  destruct p as [body|body]; cbn [atender].
  - pose proof (registro_resultado T body m) as H.
    destruct (registroHandler T body m) as [resp m']. cbn [fst snd].
    destruct H as [[Hc Hu]|(-> & req & -> & Hbf & Hu)].
    + left. split; [|exact Hu]. destruct Hc as [Hc|Hc]; rewrite Hc;
        discriminate.
    + right. exists req. auto.
  - left. split; [|apply loginHandler_usuarios].
    unfold loginHandler. destruct body as [req|]; [|discriminate].
    destruct (streq (lCorreo req) []); [discriminate|].
    destruct (streq (lPassword req) []); [discriminate|].
    destruct (buscarUsuario (usuarios m) req); discriminate.
Qed.

(** X7: serving requests only appends to the registry.  The users stored
    before stay where they are, unchanged, and the registry grows by one
    user for each request answered 201. *)
Theorem registro_solo_crece (T : Tables) (ps : list Peticion) (m : Mundo) :
  exists nuevos,
    usuarios (snd (servir T ps m)) = usuarios m ++ nuevos
    /\ List.length nuevos = exitos (fst (servir T ps m)).
Proof.
  revert m. induction ps as [|p ps IH]; intros m; cbn [servir].
  - exists []. split; [now rewrite app_nil_r|reflexivity].
  - pose proof (atender_nuevos T p m) as Hp.
    destruct (atender T p m) as [r m1]. cbn [fst snd] in Hp.
    destruct (IH m1) as (nuevos & Hu & Hn).
    destruct (servir T ps m1) as [rs m2]. cbn [fst snd] in *.
    unfold exitos in *. cbn [filter].
    destruct Hp as [[Hc Hm1]|(req & _ & Hc & _ & Hm1)].
    + exists nuevos. rewrite Hu, Hm1. split; [reflexivity|].
      apply Z.eqb_neq in Hc. now rewrite Hc.
    + exists (usuarioDe req :: nuevos). rewrite Hu, Hm1, <- app_assoc.
      split; [reflexivity|]. apply Z.eqb_eq in Hc. rewrite Hc.
      cbn [List.length]. now rewrite Hn.
Qed.

Lemma servir_validos (T : Tables) (ps : list Peticion) (m : Mundo) :
  Forall (usuarioValido T) (usuarios m) ->
  Forall (usuarioValido T) (usuarios (snd (servir T ps m))).
Proof.
  revert m. induction ps as [|p ps IH]; intros m Hm; cbn [servir];
    [exact Hm|].
  pose proof (atender_nuevos T p m) as Hp.
  destruct (atender T p m) as [r m1]. cbn [fst snd] in Hp.
  specialize (IH m1). destruct (servir T ps m1) as [rs m2]. cbn [snd] in *.
  apply IH. destruct Hp as [[_ ->]|(req & _ & _ & Hbf & ->)]; [exact Hm|].
  apply Forall_app. split; [exact Hm|]. constructor; [|constructor].
  exact Hbf.
Qed.

(** X8: whatever requests were served since the registry was empty, every
    stored user has three non-empty fields that pass the validators: an
    email [validarCorreo] accepts, a phone of ten digits, and a password
    [validarPassword] accepts. *)
Theorem usuarios_validos (T : Tables) (reloj : nat -> Time)
  (ps : list Peticion) :
  Forall (fun u => usuarioValido T u
                   /\ len (Telefono u) = 10
                   /\ Forall (fun a => esDigito (code a)) (Telefono u))
         (usuarios (snd (servir T ps (mundoInicial reloj)))).
Proof.
  eapply Forall_impl; [|apply servir_validos; constructor].
  intros u Hu. split; [exact Hu|].
  destruct Hu as (_ & _ & _ & _ & Ht & _). now apply validarTelefono_bytes.
Qed.

(** ** loginHandler, outcome by outcome *)

Lemma buscarUsuario_encuentra (us : list Usuario) (req : LoginRequest) :
  (exists u, In u us /\ Correo u = lCorreo req
             /\ Password u = lPassword req) ->
  exists u, buscarUsuario us req = Some u /\ Correo u = lCorreo req.
Proof.
  intros Hex. destruct (buscarUsuario us req) as [u|] eqn:E.
  - exists u. split; [reflexivity|]. now apply buscarUsuario_Some in E.
  - exfalso. destruct Hex as (u & Hin & Hu).
    rewrite buscarUsuario_None in E. exact (E u Hin Hu).
Qed.

Lemma login_exito (m : Mundo) (req : LoginRequest) :
  lCorreo req <> [] -> lPassword req <> [] ->
  (exists u, In u (usuarios m) /\ Correo u = lCorreo req
             /\ Password u = lPassword req) ->
  loginHandler (Some req) m
  = (respuestaLogin (lCorreo req) (reloj m (lecturas m))
                    (reloj m (S (lecturas m))),
     mkMundo (usuarios m) (reloj m) (S (S (lecturas m))) (consola m)).
Proof.
  intros Hc Hp Hex. unfold loginHandler.
  apply streq_false in Hc, Hp. rewrite Hc, Hp.
  destruct (buscarUsuario_encuentra _ _ Hex) as (u & -> & Hu).
  cbn. now rewrite Hu.
Qed.

Lemma login_sin_usuario (m : Mundo) (req : LoginRequest) :
  lCorreo req <> [] -> lPassword req <> [] ->
  (forall u, In u (usuarios m) ->
     ~ (Correo u = lCorreo req /\ Password u = lPassword req)) ->
  loginHandler (Some req) m
  = (credencialesInvalidas, imprimir (go "Usuario no encontrado.") m).
Proof.
  intros Hc Hp Hn. unfold loginHandler.
  apply streq_false in Hc, Hp. rewrite Hc, Hp.
  apply buscarUsuario_None in Hn. now rewrite Hn.
Qed.

(** X9: what decides the status of a login.  It is 200 exactly when both
    fields are present and some stored user has exactly that email and that
    password, byte for byte; 401 exactly when both fields are present and no
    stored user has both; 400 exactly when the body did not decode or a
    field is empty. *)
Theorem login_codigos (body : option LoginRequest) (m : Mundo) :
  (codigo (fst (loginHandler body m)) = StatusOK <->
   exists req, body = Some req /\ lCorreo req <> [] /\ lPassword req <> []
               /\ exists u, In u (usuarios m) /\ Correo u = lCorreo req
                            /\ Password u = lPassword req)
  /\ (codigo (fst (loginHandler body m)) = StatusUnauthorized <->
      exists req, body = Some req /\ lCorreo req <> [] /\ lPassword req <> []
                  /\ forall u, In u (usuarios m) ->
                       ~ (Correo u = lCorreo req
                          /\ Password u = lPassword req))
  /\ (codigo (fst (loginHandler body m)) = StatusBadRequest <->
      forall req, body = Some req -> lCorreo req = [] \/ lPassword req = []).
Proof.
  destruct body as [req|].
  2:{ cbn. repeat split; try discriminate;
        try (intros (r & Hr & _); discriminate Hr). }
  destruct (list_eq_dec ascii_dec (lCorreo req) []) as [Hc|Hc].
  { unfold loginHandler. rewrite Hc, streq_refl'. cbn [fst codigo responderError].
    repeat split; try discriminate;
      try (intros (r & Hr & Hr1 & _); injection Hr as <-; contradiction).
    intros _ r Hr. injection Hr as <-. now left. }
  destruct (list_eq_dec ascii_dec (lPassword req) []) as [Hp|Hp].
  { unfold loginHandler. pose proof Hc as Hc'. apply streq_false in Hc'.
    rewrite Hc', Hp, streq_refl'. cbn [fst codigo responderError].
    repeat split; try discriminate;
      try (intros (r & Hr & _ & Hr2 & _); injection Hr as <-; contradiction).
    intros _ r Hr. injection Hr as <-. now right. }
  destruct (buscarUsuario (usuarios m) req) as [u|] eqn:E.
  - apply buscarUsuario_Some in E as Hu.
    assert (exists u, In u (usuarios m) /\ Correo u = lCorreo req
                      /\ Password u = lPassword req) as Hex by eauto.
    rewrite (login_exito m req Hc Hp Hex). cbn [fst codigo respuestaLogin].
    split; [|split].
    + split; [|reflexivity]. intros _. exists req. auto.
    + split; [discriminate|]. intros (r & Hr & _ & _ & Hn). exfalso.
      injection Hr as <-. destruct Hu as (Hin & Hu). exact (Hn u Hin Hu).
    + split; [discriminate|]. intros H. exfalso.
      destruct (H req eq_refl); contradiction.
  - rewrite buscarUsuario_None in E.
    rewrite (login_sin_usuario m req Hc Hp E).
    cbn [fst codigo credencialesInvalidas responderError].
    split; [|split].
    + split; [discriminate|]. intros (r & Hr & _ & _ & (u & Hin & Hu)).
      exfalso. injection Hr as <-. exact (E u Hin Hu).
    + split; [|reflexivity]. intros _. exists req. auto.
    + split; [discriminate|]. intros H. exfalso.
      destruct (H req eq_refl); contradiction.
Qed.

(** ** From registration to login *)

Lemma servir_prefijo (T : Tables) (ps : list Peticion) (m : Mundo) :
  exists nuevos, usuarios (snd (servir T ps m)) = usuarios m ++ nuevos.
Proof.
  revert m. induction ps as [|p ps IH]; intros m; cbn [servir].
  - exists []. now rewrite app_nil_r.
  - pose proof (atender_nuevos T p m) as Hp.
    destruct (atender T p m) as [r m1]. cbn [fst snd] in Hp.
    destruct (IH m1) as (nuevos & Hu).
    destruct (servir T ps m1) as [rs m2]. cbn [snd] in *.
    destruct Hp as [[_ Hm1]|(req & _ & _ & _ & Hm1)]; rewrite Hu, Hm1.
    + now exists nuevos.
    + exists (usuarioDe req :: nuevos). now rewrite <- app_assoc.
Qed.

(** X10: after a registration answered 201, and whatever requests are
    served afterwards, a login with the email and the password of that
    registration is answered 200 with a token for that email. *)
Theorem registro_luego_login (T : Tables) (req : RegistroRequest)
  (m : Mundo) (ps : list Peticion) :
  fst (registroHandler T (Some req) m) = registrado ->
  let m2 := snd (servir T ps (snd (registroHandler T (Some req) m))) in
  loginHandler (Some (loginDe req)) m2
  = (respuestaLogin (rCorreo req) (reloj m2 (lecturas m2))
                    (reloj m2 (S (lecturas m2))),
     mkMundo (usuarios m2) (reloj m2) (S (S (lecturas m2))) (consola m2)).
Proof.
  intros Hok. cbv zeta.
  destruct (registro_exito_inv T req m Hok) as (Hbf & _ & Hm1).
  destruct (servir_prefijo T ps (snd (registroHandler T (Some req) m)))
    as (nuevos & Hu).
  rewrite Hm1 in Hu. cbn [usuarios imprimir agregar] in Hu.
  destruct Hbf as (Hc & _ & Hp & _).
  apply (login_exito _ (loginDe req)); [exact Hc|exact Hp|].
  exists (usuarioDe req). split; [|split; reflexivity].
  rewrite Hm1, Hu. apply in_or_app. left. apply in_or_app. right. now left.
Qed.

Lemma registro_luego_login_witness :
  let m2 := snd (servir tablasMuestra
                        [PRegistro (Some peticionCarlos);
                         PLogin (Some loginAna)]
                        (snd (registroHandler tablasMuestra (Some peticionAna)
                                              (mundoInicial relojFijo)))) in
  loginHandler (Some (loginDe peticionAna)) m2
  = (respuestaLogin (rCorreo peticionAna) (reloj m2 (lecturas m2))
                    (reloj m2 (S (lecturas m2))),
     mkMundo (usuarios m2) (reloj m2) (S (S (lecturas m2))) (consola m2)).
Proof.
  apply (registro_luego_login tablasMuestra peticionAna
           (mundoInicial relojFijo)
           [PRegistro (Some peticionCarlos); PLogin (Some loginAna)]).
  vm_compute. reflexivity.
Defined.

(** X11: a login never changes the registry, whatever the request and the
    answer.  It reads the clock twice when it answers 200 and not at all
    otherwise. *)
Theorem login_no_modifica (body : option LoginRequest) (m : Mundo) :
  let '(resp, m') := loginHandler body m in
  usuarios m' = usuarios m
  /\ reloj m' = reloj m
  /\ lecturas m'
     = if codigo resp =? StatusOK then S (S (lecturas m)) else lecturas m.
Proof.
  unfold loginHandler. destruct body as [req|]; [|cbn; auto].
  destruct (streq (lCorreo req) []); [cbn; auto|].
  destruct (streq (lPassword req) []); [cbn; auto|].
  destruct (buscarUsuario (usuarios m) req); cbn; auto.
Qed.
